(** * vibe-cli: command resolution and template execution

    A shallow embedding of the command-resolution and template-execution
    engine of vibe-cli: the Node entry point ([main.ts]) and the shared
    TypeScript utilities ([shared/utils.ts]), with the logger and the
    rewriting of the shell configuration file by [install-alias].

    JavaScript strings are modelled by [string]; one [ascii] stands for one
    UTF-16 code unit.  The functions below inspect a code unit only by
    comparing it with a fixed ASCII character; the one exception is [trim]
    in the module on [install-alias], whose white space is that of the code
    units below 256. *)

From Stdlib Require Import Ascii String List Arith ZArith Lia.
From stdpp Require Import base option list strings gmap.

(** ** The string primitives of the JavaScript runtime used by the code *)

Module JsString.

Definition LBRACE : ascii := "{"%char.
Definition RBRACE : ascii := "}"%char.
Definition DOLLAR : ascii := "$"%char.

(** [s.includes(c)] for a one code unit needle [c]. *)
Fixpoint includesChar (c : ascii) (s : string) : bool :=
  match s with
  | EmptyString => false
  | String d r => if Ascii.eqb d c then true else includesChar c r
  end.

(** [stripPrefix p s = Some r] exactly when [s] is [p] followed by [r]. *)
Fixpoint stripPrefix (p s : string) : option string :=
  match p, s with
  | EmptyString, _ => Some s
  | String a p', String b s' => if Ascii.eqb a b then stripPrefix p' s' else None
  | String _ _, EmptyString => None
  end.

(** [StringIndexOf(s, pat, 0)], returned as the text before and after the
    first occurrence of [pat] in [s]. *)
Fixpoint splitAtFirst (pat s : string) : option (string * string) :=
  match stripPrefix pat s with
  | Some after => Some (EmptyString, after)
  | None =>
      match s with
      | EmptyString => None
      | String c r =>
          match splitAtFirst pat r with
          | Some (before, after) => Some (String c before, after)
          | None => None
          end
      end
  end.

(** ECMAScript [GetSubstitution] for a string pattern: there are no capture
    groups, so of the dollar patterns only [$$], [$&], [$`] and [$'] are
    special; [$n] and [$<] stand for themselves. *)
Fixpoint getSubstitution (matched before after tpl : string) : string :=
  match tpl with
  | EmptyString => EmptyString
  | String c r =>
      if Ascii.eqb c DOLLAR then
        match r with
        | String d r' =>
            if Ascii.eqb d DOLLAR then String DOLLAR (getSubstitution matched before after r')
            else if Ascii.eqb d "&" then matched +:+ getSubstitution matched before after r'
            else if Ascii.eqb d "`" then before +:+ getSubstitution matched before after r'
            else if Ascii.eqb d "'" then after +:+ getSubstitution matched before after r'
            else String c (getSubstitution matched before after r)
        | EmptyString => String c EmptyString
        end
      else String c (getSubstitution matched before after r)
  end.

(** [s.replace(pat, repl)] with a string pattern: only the first occurrence
    is replaced, and [repl] goes through [GetSubstitution]. *)
Definition replace (s pat repl : string) : string :=
  match splitAtFirst pat s with
  | None => s
  | Some (before, after) =>
      before +:+ getSubstitution pat before after repl +:+ after
  end.

(** The tail [[^}]+\}] of the placeholder pattern, matched greedily: the
    text up to the first closing brace, and what follows that brace. *)
Fixpoint untilClose (s : string) : option (string * string) :=
  match s with
  | EmptyString => None
  | String c r =>
      if Ascii.eqb c RBRACE then Some (EmptyString, r)
      else match untilClose r with
           | Some (body, rest) => Some (String c body, rest)
           | None => None
           end
  end.

(** One attempt of [/\{([^}]+)\}/] at the start of [s]: the matched text and
    the text after the match. *)
Definition matchPlaceholderAt (s : string) : option (string * string) :=
  match s with
  | EmptyString => None
  | String c r =>
      if Ascii.eqb c LBRACE then
        match untilClose r with
        | Some (String b body, rest) =>
            Some (String LBRACE (String b body +:+ String RBRACE EmptyString), rest)
        | _ => None
        end
      else None
  end.

(** [s.match(/\{([^}]+)\}/g) || []]: all matches from left to right; after
    a match the scan resumes behind it, after a failed attempt one code
    unit further. *)
Fixpoint matchAllFuel (fuel : nat) (s : string) : list string :=
  match fuel with
  | O => []
  | S n =>
      match s with
      | EmptyString => []
      | String _ r =>
          match matchPlaceholderAt s with
          | Some (m, rest) => m :: matchAllFuel n rest
          | None => matchAllFuel n r
          end
      end
  end.

Definition matchPlaceholders (s : string) : list string :=
  matchAllFuel (String.length s) s.

(** [s.replace(/[{}]/g, '')]: every brace removed. *)
Fixpoint removeBraces (s : string) : string :=
  match s with
  | EmptyString => EmptyString
  | String c r =>
      if Ascii.eqb c LBRACE || Ascii.eqb c RBRACE then removeBraces r
      else String c (removeBraces r)
  end.

End JsString.

(** ** Notions about templates and arguments used in the statements *)

Module Template.
Import JsString.

(** A placeholder: an opening brace, a non-empty body without a closing
    brace, and a closing brace. *)
Definition placeholderShape (m : string) : Prop :=
  exists (b : ascii) (body : string),
    m = String LBRACE (String b body +:+ String RBRACE EmptyString)
    /\ includesChar RBRACE (String b body) = false.

(** A placeholder with a further opening brace between its braces, such as
    the match of the pattern in the template [{{a}]. *)
Definition innerBrace (placeholder : string) : bool :=
  match placeholder with
  | EmptyString => false
  | String _ inner => includesChar LBRACE inner
  end.

(** Every opening brace of the text is directly followed by a closing one;
    [opened] tells that the code unit in front of the text is an opening
    brace. *)
Fixpoint inertFrom (opened : bool) (s : string) : bool :=
  match s with
  | EmptyString => negb opened
  | String c r =>
      if opened then Ascii.eqb c RBRACE && inertFrom false r
      else inertFrom (Ascii.eqb c LBRACE) r
  end.

Definition inert (s : string) : bool := inertFrom false s.

(** An argument with neither an opening brace nor a dollar sign. *)
Definition plainArgument (a : string) : Prop :=
  includesChar LBRACE a = false /\ includesChar DOLLAR a = false.

End Template.

(** ** Property lookup on plain objects

    The command tables are plain JavaScript objects used as maps from
    strings.  [o[k]] finds an own property first and falls back on
    [Object.prototype]; what is found there is a built-in function or
    object, which is no table entry. *)

Module JsObject.

Definition objectPrototypeKeys : list string :=
  [ "constructor"; "__defineGetter__"; "__defineSetter__"; "hasOwnProperty";
    "__lookupGetter__"; "__lookupSetter__"; "isPrototypeOf";
    "propertyIsEnumerable"; "toString"; "valueOf"; "__proto__";
    "toLocaleString" ].

Definition isPrototypeKey (k : string) : bool :=
  existsb (String.eqb k) objectPrototypeKeys.

Inductive Property (V : Type) : Type :=
| Own (v : V)
| Inherited
| Undefined.
Arguments Own {V} v.
Arguments Inherited {V}.
Arguments Undefined {V}.

Definition getProperty {V : Type} (o : gmap string V) (k : string) : Property V :=
  match o !! k with
  | Some v => Own v
  | None => if isPrototypeKey k then Inherited else Undefined
  end.

(** Truthiness of an optional string: [undefined] and the empty string are
    falsy. *)
Definition truthy (s : option string) : bool :=
  match s with
  | Some (String _ _) => true
  | _ => false
  end.

(** The value that a lookup in a table finds: an entry of the table, or
    the built-in that [Object.prototype] holds under the name; [path] names
    the built-in, from [Object.prototype] on.  The built-ins under the
    twelve names are functions, and [Object.prototype] itself under
    [__proto__]: all of them are truthy. *)
Inductive Found (V : Type) : Type :=
| Entry (v : V)
| BuiltIn (path : list string).
Arguments Entry {V} v.
Arguments BuiltIn {V} path.

(** What reading a property of such a built-in gives: this is decided by
    the runtime, not by the tables.  The getter throws (as [caller] and
    [arguments] of a built-in function do), or the value is falsy
    ([undefined] for most names), or it is a truthy built-in value (a
    function, a string such as [Object.name], a number).  None of these
    values has a property [description], [command] or [handler], and a
    [for-in] loop over a built-in visits nothing. *)
Inductive BuiltinLookup (E : Type) : Type :=
| LookupThrows (e : E)
| LookupFalsy
| LookupTruthy.
Arguments LookupThrows {E} e.
Arguments LookupFalsy {E}.
Arguments LookupTruthy {E}.

End JsObject.

(** ** The Node entry point *)

Module NodeMain.
Import JsString JsObject.

Record CommandConfig := {
  command : option string;
  description : option string;
  handler : option string;
  telemetry_event : option string;
  package_manager_sensitive : option bool;
  aliases : option (list string)
}.

Abbreviation ToolCommands := (gmap string CommandConfig).
Abbreviation AllCommands := (gmap string (gmap string CommandConfig)).
Abbreviation NaturalLanguageCommands := (gmap string (gmap string string)).

Record CommandResult := {
  type : string;
  success : option bool;
  stdout : option string;
  stderr : option string;
  error : option string
}.

Definition CLI_VERSION : string := "0.1.0".

(** *** Effects: an event trace, exceptions and [process.exit] *)

(** The candidates of [getSharedDir]. *)
Inductive SharedDir := LocalShared | ProjectShared | PackageShared | MockDir | EmbeddedDir.

(** A JavaScript exception value, with the fields the code reads. *)
Record JsError := {
  message : string;
  errStdout : option string;
  errStderr : option string
}.

(** The calls that a run makes, in order.  [LoggerDebug] and [LoggerError]
    are calls of the logger, which prints them or not by its threshold (see
    the module on the logger); the three [Print...Help] events are calls of
    the help printers, and the two [...Builtin] ones are these calls on a
    built-in in the place of a table or of a descriptor. *)
Inductive Event :=
| LoggerDebug (msg : string)
| LoggerError (msg : string)
| ConsoleLog (msg : string)
| ConsoleError (msg : string)
| MkdirSync (d : SharedDir)
| PrintGeneralHelp (commands : AllCommands)
| PrintToolHelp (toolName : string) (toolCommands : ToolCommands)
| PrintCommandHelp (toolName commandName : string) (config : CommandConfig)
| PrintToolHelpBuiltin (toolName : string)
| PrintCommandHelpBuiltin (toolName commandName : string)
| ExecSync (cmd : string)
| StdoutWrite (s : string)
| StderrWrite (s : string)
| ProgramParse (argv : list string)
| UninstallVibes (argv : list string).

(** How a computation ends: with a value, with an exception, or by
    [process.exit]. *)
Inductive Outcome (A : Type) : Type :=
| Value (a : A)
| Thrown (e : JsError)
| Exited (code : Z).
Arguments Value {A} a.
Arguments Thrown {A} e.
Arguments Exited {A} code.

Definition Run (A : Type) : Type := (list Event * Outcome A)%type.

Definition ret {A : Type} (a : A) : Run A := ([], Value a).

Definition bind {A B : Type} (m : Run A) (k : A -> Run B) : Run B :=
  match m with
  | (t, Value a) => let (t', o) := k a in (t ++ t', o)
  | (t, Thrown e) => (t, Thrown e)
  | (t, Exited c) => (t, Exited c)
  end.

Definition emit (e : Event) : Run unit := ([e], Value tt).
Definition throw {A : Type} (e : JsError) : Run A := ([], Thrown e).
Definition processExit {A : Type} (code : Z) : Run A := ([], Exited code).

(** [try { m } catch (e) { h e }]; [process.exit] is not caught. *)
Definition tryCatch {A : Type} (m : Run A) (h : JsError -> Run A) : Run A :=
  match m with
  | (t, Thrown e) => let (t', o) := h e in (t ++ t', o)
  | _ => m
  end.

Notation "'do' x <- m 'in' k" := (bind m (fun x => k))
  (at level 10, x name, m at level 100, k at level 200).
Notation "m '>>' k" := (bind m (fun _ => k))
  (at level 100, k at level 200, right associativity).

(** [if (b) { m }] *)
Definition when (b : bool) (m : Run unit) : Run unit := if b then m else ret tt.

Definition trace {A : Type} (r : Run A) : list Event := fst r.
Definition outcome {A : Type} (r : Run A) : Outcome A := snd r.

(** *** The environment of one run *)

Inductive ReadResult :=
| ReadOk (contents : string)
| ReadThrows (e : JsError).

(** [yaml.load(contents)]: a parse error, a falsy document, or a table. *)
Inductive YamlResult (T : Type) : Type :=
| YamlThrows (e : JsError)
| YamlFalsy
| YamlTable (t : T).
Arguments YamlThrows {T} e.
Arguments YamlFalsy {T}.
Arguments YamlTable {T} t.

(** What became of the child process that [execSync] asked for: it ran to
    its end with an exit status, it was ended by a signal, one of its output
    streams outgrew the buffer of [execSync] ([maxBuffer], one MiB unless
    the caller sets it, which [executeShellCommand] does not), or the shell
    could not be started.  [out] and [err] are what [execSync] captured of
    the two streams, cut at the limit in the third case; [exited] is there
    the exit status of a child that had run to its end all the same. *)
Inductive ChildOutcome :=
| ChildExit (status : Z) (out err : string)
| ChildKilled (signal : string) (out err : string)
| BufferExceeded (exited : option Z) (out err : string)
| SpawnFailed (reason : string).

(** The exit status of a child that ran to its end. *)
Definition exitStatus (o : ChildOutcome) : option Z :=
  match o with
  | ChildExit status _ _ => Some status
  | BufferExceeded exited _ _ => exited
  | ChildKilled _ _ _ | SpawnFailed _ => None
  end.

(** The environment.  [builtinProperty k1 k2] is what the runtime gives
    for the property [k2] of the built-in [Object.prototype[k1]].
    [programParse] and [uninstallVibes] are the runs of the two callees to
    which [main] hands the installer subcommands: [program.parse] of the
    commander library, which runs the action of [install-alias], and
    [uninstallVibes] of [commands/uninstall]; both print, touch the file
    system and hand command lines to the shell, and the first can end the
    process. *)
Record World := {
  dirPath : SharedDir -> string;
  existsSync : SharedDir -> bool;
  isTestEnv : bool;
  readFileSync : SharedDir -> string -> ReadResult;
  yamlLoadCommands : string -> YamlResult AllCommands;
  yamlLoadPhrases : string -> YamlResult NaturalLanguageCommands;
  spawnShell : string -> ChildOutcome;
  builtinProperty : string -> string -> BuiltinLookup JsError;
  programParse : list string -> Run unit;
  uninstallVibes : list string -> Run unit
}.

(** *** Locating and loading the tables *)

Definition getSharedDir (w : World) : Run SharedDir :=
  if existsSync w LocalShared then
    emit (LoggerDebug ("Found shared directory at " +:+ dirPath w LocalShared)) >>
    ret LocalShared
  else if existsSync w ProjectShared then
    emit (LoggerDebug ("Found shared directory at " +:+ dirPath w ProjectShared)) >>
    ret ProjectShared
  else if existsSync w PackageShared then
    emit (LoggerDebug ("Found shared directory at " +:+ dirPath w PackageShared)) >>
    ret PackageShared
  else if isTestEnv w then
    (if existsSync w MockDir then ret tt else emit (MkdirSync MockDir)) >>
    ret MockDir
  else
    emit (LoggerError ("Could not find shared directory in: "
            +:+ dirPath w LocalShared +:+ ", " +:+ dirPath w ProjectShared
            +:+ ", " +:+ dirPath w PackageShared)) >>
    emit (LoggerDebug ("Falling back to embedded directory: " +:+ dirPath w EmbeddedDir)) >>
    ret EmbeddedDir.

Definition readFile (w : World) (d : SharedDir) (name : string) : Run string :=
  match readFileSync w d name with
  | ReadOk contents => ret contents
  | ReadThrows e => throw e
  end.

(** [yaml.load(contents) as T || {}] *)
Definition yamlLoadOr {T : Type} (r : YamlResult T) (dflt : T) : Run T :=
  match r with
  | YamlThrows e => throw e
  | YamlFalsy => ret dflt
  | YamlTable t => ret t
  end.

Definition loadCommands (w : World) : Run AllCommands :=
  do sharedDir <- getSharedDir w in
  tryCatch
    (do fileContents <- readFile w sharedDir "commands.yaml" in
     yamlLoadOr (yamlLoadCommands w fileContents) ∅)
    (fun e =>
       emit (LoggerError ("Failed to load commands: " +:+ message e)) >>
       ret ∅).

Definition loadNaturalLanguageCommands (w : World) : Run NaturalLanguageCommands :=
  do sharedDir <- getSharedDir w in
  tryCatch
    (do fileContents <- readFile w sharedDir "vibe_language_commands.yaml" in
     yamlLoadOr (yamlLoadPhrases w fileContents) ∅)
    (fun e =>
       emit (LoggerError ("Failed to load natural language commands: " +:+ message e)) >>
       ret ∅).

(** *** The template formatter *)

(** The [for] loop of [formatCommand], from index [i] on. *)
Fixpoint formatLoop (placeholders : list string) (i : nat)
    (args : list string) (result : string) : string :=
  match placeholders with
  | [] => result
  | placeholder :: more =>
      formatLoop more (S i) args
        (if i <? length args
         then replace result placeholder (nth i args EmptyString)
         else result)
  end.

Definition formatCommand (template : string) (args : list string) : string :=
  if includesChar LBRACE template
  then formatLoop (matchPlaceholders template) 0 args template
  else template.

(** *** The shell executor *)

(** The message of the [Error] that [execSync] throws for a command that
    did not exit with status 0. *)
Definition commandFailed (cmd err : string) : string :=
  "Command failed: " +:+ cmd
  +:+ (if truthy (Some err) then String "010" err else EmptyString).

(** The message of the error of [spawnSync] when an output stream of the
    child outgrows [maxBuffer]. *)
Definition ENOBUFS : string := "spawnSync /bin/sh ENOBUFS".

(** Node's [child_process.execSync(command, { encoding: 'utf8' })], after
    its documentation and its source ([execSync] and [checkExecSyncError]
    of [lib/child_process.js]): the command line is handed to the shell;
    what was captured of the standard error of the child is passed on to
    the standard error of the process; the call returns the captured
    standard output when the child exits with status 0 and its output
    stayed within [maxBuffer], and throws otherwise: the error of
    [spawnSync] when there is one (the buffer was outgrown, the shell could
    not be started), the error [Command failed] else; the error carries the
    captured streams. *)
Definition execSync (w : World) (cmd : string) : Run string :=
  emit (ExecSync cmd) >>
  match spawnShell w cmd with
  | ChildExit status out err =>
      when (truthy (Some err)) (emit (StderrWrite err)) >>
      if (status =? 0)%Z then ret out
      else throw {| message := commandFailed cmd err;
                    errStdout := Some out; errStderr := Some err |}
  | ChildKilled _ out err =>
      when (truthy (Some err)) (emit (StderrWrite err)) >>
      throw {| message := commandFailed cmd err;
               errStdout := Some out; errStderr := Some err |}
  | BufferExceeded _ out err =>
      when (truthy (Some err)) (emit (StderrWrite err)) >>
      throw {| message := ENOBUFS; errStdout := Some out; errStderr := Some err |}
  | SpawnFailed reason =>
      throw {| message := reason; errStdout := None; errStderr := None |}
  end.

(** [v || ''] *)
Definition orEmpty (v : option string) : string :=
  if truthy v then default EmptyString v else EmptyString.

Definition executeShellCommand (w : World) (cmd : string) : Run CommandResult :=
  tryCatch
    (do out <- execSync w cmd in
     ret {| type := "shell"; success := Some true; stdout := Some out;
            stderr := None; error := None |})
    (fun err =>
       ret {| type := "shell"; success := Some false;
              error := Some (message err);
              stdout := Some (orEmpty (errStdout err));
              stderr := Some (orEmpty (errStderr err)) |}).

(** *** The top-level flow *)

(** [`${v}`] for an optional string. *)
Definition interpolate (v : option string) : string := default "undefined" v.

(** [l[i] === v] *)
Definition argIs (i : nat) (v : string) (l : list string) : bool :=
  match l !! i with
  | Some a => String.eqb a v
  | None => false
  end.

(** The end of [main] when [command] is a truthy built-in: it has neither
    a handler nor a template. *)
Definition builtinCommand (toolName commandName : string) (cliArgs : list string)
    : Run unit :=
  if (2 <? length cliArgs) && argIs 2 "help" cliArgs then
    emit (PrintCommandHelpBuiltin toolName commandName)
  else
    emit (ConsoleError "Error: Invalid command configuration") >>
    processExit 1.

(** [main] from the check of the loaded table on. *)
Definition dispatch (w : World) (commands : AllCommands) (cliArgs : list string)
    : Run unit :=
  when (size commands =? 0)
    (emit (LoggerError "Failed to load command definitions") >>
     emit (ConsoleError "Error: Failed to load command definitions") >>
     processExit 1) >>
  if (length cliArgs =? 0) || argIs 0 "help" cliArgs || argIs 0 "--help" cliArgs then
    emit (PrintGeneralHelp commands)
  else if argIs 0 "--version" cliArgs || argIs 0 "-v" cliArgs then
    emit (ConsoleLog CLI_VERSION)
  else
    let toolName := nth 0 cliArgs EmptyString in
    match getProperty commands toolName with
    | Undefined =>
        emit (LoggerError ("Unknown tool or command: " +:+ String.concat " " cliArgs)) >>
        emit (ConsoleError ("Error: Unknown tool or command: " +:+ String.concat " " cliArgs)) >>
        emit (PrintGeneralHelp commands) >>
        processExit 1
    | Inherited =>
      if (length cliArgs =? 1) || ((1 <? length cliArgs) && argIs 1 "help" cliArgs) then
        emit (PrintToolHelpBuiltin toolName)
      else
        let commandName := nth 1 cliArgs EmptyString in
        match builtinProperty w toolName commandName with
        | LookupThrows e => throw e
        | LookupFalsy =>
            emit (LoggerError ("Unknown command: " +:+ toolName +:+ " " +:+ commandName)) >>
            emit (ConsoleError ("Error: Unknown command: " +:+ toolName +:+ " " +:+ commandName)) >>
            emit (PrintToolHelpBuiltin toolName) >>
            processExit 1
        | LookupTruthy => builtinCommand toolName commandName cliArgs
        end
    | Own toolCommands =>
      if (length cliArgs =? 1) || ((1 <? length cliArgs) && argIs 1 "help" cliArgs) then
        emit (PrintToolHelp toolName toolCommands)
      else
        let commandName := nth 1 cliArgs EmptyString in
        match getProperty toolCommands commandName with
        | Undefined =>
            emit (LoggerError ("Unknown command: " +:+ toolName +:+ " " +:+ commandName)) >>
            emit (ConsoleError ("Error: Unknown command: " +:+ toolName +:+ " " +:+ commandName)) >>
            emit (PrintToolHelp toolName toolCommands) >>
            processExit 1
        | Inherited => builtinCommand toolName commandName cliArgs
        | Own cfg =>
          if (2 <? length cliArgs) && argIs 2 "help" cliArgs then
            emit (PrintCommandHelp toolName commandName cfg)
          else if truthy (handler cfg) then
            emit (ConsoleLog ("Handler execution: " +:+ interpolate (handler cfg)))
          else if truthy (command cfg) then
            let cmdTemplate := interpolate (command cfg) in
            let args := drop 2 cliArgs in
            let finalCommand := formatCommand cmdTemplate args in
            do result <- executeShellCommand w finalCommand in
            if bool_decide (success result = Some true) then
              when (truthy (stdout result))
                (emit (StdoutWrite (interpolate (stdout result))))
            else
              emit (ConsoleError ("Error executing command: " +:+ interpolate (error result))) >>
              when (truthy (stderr result))
                (emit (StderrWrite (interpolate (stderr result)))) >>
              processExit 1
          else
            emit (ConsoleError "Error: Invalid command configuration") >>
            processExit 1
        end
    end.

(** [main], on [cliArgs = process.argv.slice(2)]. *)
Definition main (w : World) (cliArgs : list string) : Run unit :=
  if argIs 0 "install-alias" cliArgs then
    emit (ProgramParse cliArgs) >> programParse w cliArgs
  else if argIs 0 "uninstall" cliArgs then
    emit (UninstallVibes (drop 1 cliArgs)) >> uninstallVibes w (drop 1 cliArgs)
  else
    do commands <- loadCommands w in
    do nlCommands <- loadNaturalLanguageCommands w in
    dispatch w commands cliArgs.

(** The events of help rendering and of command execution. *)
Definition resolutionEvent (e : Event) : bool :=
  match e with
  | PrintGeneralHelp _ | PrintToolHelp _ _ | PrintCommandHelp _ _ _
  | PrintToolHelpBuiltin _ | PrintCommandHelpBuiltin _ _
  | ExecSync _ | StdoutWrite _ | StderrWrite _ | ConsoleLog _ => true
  | _ => false
  end.

(** The events a table loader can produce. *)
Definition loaderEvent (e : Event) : bool :=
  match e with
  | LoggerDebug _ | LoggerError _ | MkdirSync _ => true
  | _ => false
  end.

(** The directory [getSharedDir] settles on. *)
Definition sharedDirOf (w : World) : SharedDir :=
  match outcome (getSharedDir w) with
  | Value d => d
  | _ => EmbeddedDir
  end.

(** Reading and parsing the command file fails with the exception [e]. *)
Definition commandFileFails (w : World) (e : JsError) : Prop :=
  readFileSync w (sharedDirOf w) "commands.yaml" = ReadThrows e
  \/ exists contents,
       readFileSync w (sharedDirOf w) "commands.yaml" = ReadOk contents
       /\ yamlLoadCommands w contents = YamlThrows e.

(** First tokens that [main] handles before it looks for a tool. *)
Definition reservedWords : list string :=
  ["install-alias"; "uninstall"; "help"; "--help"; "--version"; "-v"].

Definition reservedWord (t : string) : bool :=
  existsb (String.eqb t) reservedWords.

(** The two subcommands that [main] hands over before it loads a table. *)
Definition installerArgs (cliArgs : list string) : bool :=
  argIs 0 "install-alias" cliArgs || argIs 0 "uninstall" cliArgs.

(** The command lines that a run hands to [execSync], in order. *)
Definition executedCommands (t : list Event) : list string :=
  omap (fun e => match e with ExecSync cmd => Some cmd | _ => None end) t.

(** [text] when it is not empty. *)
Definition written (stream : string -> Event) (text : string) : list Event :=
  if truthy (Some text) then [stream text] else [].

(** What [execSync] captured of the standard output of the child. *)
Definition capturedStdout (o : ChildOutcome) : string :=
  match o with
  | ChildExit _ out _ | ChildKilled _ out _ | BufferExceeded _ out _ => out
  | SpawnFailed _ => EmptyString
  end.

(** What [execSync] captured of the standard error of the child. *)
Definition capturedStderr (o : ChildOutcome) : string :=
  match o with
  | ChildExit _ _ err | ChildKilled _ _ err | BufferExceeded _ _ err => err
  | SpawnFailed _ => EmptyString
  end.

(** The message of the error that [execSync] throws for a child that did
    not exit with status 0 within the buffer. *)
Definition failureMessage (cmd : string) (o : ChildOutcome) : string :=
  match o with
  | ChildExit _ _ err | ChildKilled _ _ err => commandFailed cmd err
  | BufferExceeded _ _ _ => ENOBUFS
  | SpawnFailed reason => reason
  end.

(** Reading and parsing the phrase file fails with the exception [e]. *)
Definition phraseFileFails (w : World) (e : JsError) : Prop :=
  readFileSync w (sharedDirOf w) "vibe_language_commands.yaml" = ReadThrows e
  \/ exists contents,
       readFileSync w (sharedDirOf w) "vibe_language_commands.yaml" = ReadOk contents
       /\ yamlLoadPhrases w contents = YamlThrows e.

End NodeMain.

(** ** The shared utilities *)

Module SharedUtils.
Import JsString JsObject.

Record CommandConfig := {
  command : option string;
  description : option string;
  handler : option string;
  args : option (list string)
}.

Abbreviation ToolCommands := (gmap string CommandConfig).
Abbreviation AllCommands := (gmap string (gmap string CommandConfig)).

Record CommandInfo := {
  ci_type : option string;
  ci_tool : option string;
  ci_command : option string;
  ci_config : option (Found CommandConfig);
  ci_args : option (list string);
  ci_error : option string;
  ci_showHelp : option bool;
  ci_toolHelp : option string;
  ci_commands : option (Found ToolCommands);
  ci_commandHelp : option bool;
  ci_success : option bool;
  ci_result : option string
}.

(** [l[i] === v] *)
Definition argIs (i : nat) (v : string) (l : list string) : bool :=
  match l !! i with
  | Some a => String.eqb a v
  | None => false
  end.

(** The two results of [parseCommandArgs] for a command that was found. *)
Definition commandFound (toolName commandName : string)
    (command : Found CommandConfig) (argv : list string) : CommandInfo :=
  if (2 <? length argv) && argIs 2 "help" argv then
    {| ci_commandHelp := Some true; ci_tool := Some toolName;
       ci_command := Some commandName; ci_config := Some command;
       ci_type := None; ci_args := None; ci_error := None;
       ci_showHelp := None; ci_toolHelp := None; ci_commands := None;
       ci_success := None; ci_result := None |}
  else
    {| ci_tool := Some toolName; ci_command := Some commandName;
       ci_config := Some command; ci_args := Some (drop 2 argv);
       ci_type := None; ci_error := None; ci_showHelp := None;
       ci_toolHelp := None; ci_commands := None; ci_commandHelp := None;
       ci_success := None; ci_result := None |}.

(** The result of [parseCommandArgs] for a command that was not found. *)
Definition commandUnknown (toolName commandName : string)
    (toolCommands : Found ToolCommands) : CommandInfo :=
  {| ci_error := Some ("Unknown command: " +:+ toolName +:+ " " +:+ commandName);
     ci_toolHelp := Some toolName; ci_commands := Some toolCommands;
     ci_type := None; ci_tool := None; ci_command := None; ci_config := None;
     ci_args := None; ci_showHelp := None; ci_commandHelp := None;
     ci_success := None; ci_result := None |}.

Definition toolHelp (toolName : string) (toolCommands : Found ToolCommands)
    : CommandInfo :=
  {| ci_toolHelp := Some toolName; ci_commands := Some toolCommands;
     ci_type := None; ci_tool := None; ci_command := None; ci_config := None;
     ci_args := None; ci_error := None; ci_showHelp := None;
     ci_commandHelp := None; ci_success := None; ci_result := None |}.

(** [parseCommandArgs]; [builtinProperty k1 k2] is what the runtime gives
    for the property [k2] of the built-in [Object.prototype[k1]], and the
    result is [None] when the call throws, which it does when such a lookup
    throws. *)
Definition parseCommandArgs {E : Type}
    (builtinProperty : string -> string -> BuiltinLookup E)
    (argv : list string) (commands : AllCommands) : option CommandInfo :=
  if length argv =? 0 then
    Some {| ci_error := Some "No command specified"; ci_showHelp := Some true;
            ci_type := None; ci_tool := None; ci_command := None; ci_config := None;
            ci_args := None; ci_toolHelp := None; ci_commands := None;
            ci_commandHelp := None; ci_success := None; ci_result := None |}
  else if argIs 0 "--version" argv || argIs 0 "-v" argv then
    Some {| ci_type := Some "system"; ci_command := Some "version"; ci_args := Some [];
            ci_tool := None; ci_config := None; ci_error := None; ci_showHelp := None;
            ci_toolHelp := None; ci_commands := None; ci_commandHelp := None;
            ci_success := None; ci_result := None |}
  else if argIs 0 "help" argv || argIs 0 "--help" argv || argIs 0 "-h" argv then
    Some {| ci_showHelp := Some true;
            ci_type := None; ci_tool := None; ci_command := None; ci_config := None;
            ci_args := None; ci_error := None; ci_toolHelp := None; ci_commands := None;
            ci_commandHelp := None; ci_success := None; ci_result := None |}
  else
    let toolName := nth 0 argv EmptyString in
    match getProperty commands toolName with
    | Undefined =>
        Some {| ci_error := Some ("Unknown tool: " +:+ toolName); ci_showHelp := Some true;
                ci_type := None; ci_tool := None; ci_command := None; ci_config := None;
                ci_args := None; ci_toolHelp := None; ci_commands := None;
                ci_commandHelp := None; ci_success := None; ci_result := None |}
    | Inherited =>
      if (length argv =? 1) || ((1 <? length argv) && argIs 1 "help" argv) then
        Some (toolHelp toolName (BuiltIn [toolName]))
      else
        let commandName := nth 1 argv EmptyString in
        match builtinProperty toolName commandName with
        | LookupThrows _ => None
        | LookupFalsy => Some (commandUnknown toolName commandName (BuiltIn [toolName]))
        | LookupTruthy =>
            Some (commandFound toolName commandName
                    (BuiltIn [toolName; commandName]) argv)
        end
    | Own toolCommands =>
      if (length argv =? 1) || ((1 <? length argv) && argIs 1 "help" argv) then
        Some (toolHelp toolName (Entry toolCommands))
      else
        let commandName := nth 1 argv EmptyString in
        match getProperty toolCommands commandName with
        | Undefined => Some (commandUnknown toolName commandName (Entry toolCommands))
        | Inherited =>
            Some (commandFound toolName commandName (BuiltIn [commandName]) argv)
        | Own cfg => Some (commandFound toolName commandName (Entry cfg) argv)
        end
    end.

(** The [forEach] callback of [formatCommand], from index [i] on. *)
Fixpoint formatEach (placeholders : list string) (i : nat)
    (args : list string) (result : string) : string :=
  match placeholders with
  | [] => result
  | placeholder :: more =>
      let clean := removeBraces placeholder in
      formatEach more (S i) args
        (if i <? length args
         then replace result
                (String LBRACE (clean +:+ String RBRACE EmptyString))
                (nth i args EmptyString)
         else result)
  end.

Definition formatCommand (template : string) (args : list string) : string :=
  if includesChar LBRACE template
  then formatEach (matchPlaceholders template) 0 args template
  else template.

(** [executeCommand]; [args] defaults to the empty list, and a built-in
    in the place of the descriptor has neither a handler nor a template. *)
Definition executeCommand (commandInfo : CommandInfo) : CommandInfo :=
  let argv := default [] (ci_args commandInfo) in
  match ci_config commandInfo with
  | None =>
      {| ci_error := Some "Invalid command configuration";
         ci_type := None; ci_tool := None; ci_command := None; ci_config := None;
         ci_args := None; ci_showHelp := None; ci_toolHelp := None;
         ci_commands := None; ci_commandHelp := None; ci_success := None;
         ci_result := None |}
  | Some (BuiltIn _) =>
      {| ci_error := Some "Command configuration is invalid";
         ci_type := None; ci_tool := None; ci_command := None; ci_config := None;
         ci_args := None; ci_showHelp := None; ci_toolHelp := None;
         ci_commands := None; ci_commandHelp := None; ci_success := None;
         ci_result := None |}
  | Some (Entry config) =>
      if truthy (handler config) then
        {| ci_type := Some "handler"; ci_success := Some true;
           ci_result := Some ("Handler executed: " +:+ default "undefined" (handler config));
           ci_tool := None; ci_command := None; ci_config := None; ci_args := None;
           ci_error := None; ci_showHelp := None; ci_toolHelp := None;
           ci_commands := None; ci_commandHelp := None |}
      else if truthy (command config) then
        let cmdTemplate := default "undefined" (command config) in
        let finalCommand := formatCommand cmdTemplate argv in
        {| ci_type := Some "shell"; ci_success := Some true;
           ci_result := Some ("Command executed: " +:+ finalCommand);
           ci_tool := None; ci_command := None; ci_config := None; ci_args := None;
           ci_error := None; ci_showHelp := None; ci_toolHelp := None;
           ci_commands := None; ci_commandHelp := None |}
      else
        {| ci_error := Some "Command configuration is invalid";
           ci_type := None; ci_tool := None; ci_command := None; ci_config := None;
           ci_args := None; ci_showHelp := None; ci_toolHelp := None;
           ci_commands := None; ci_commandHelp := None; ci_success := None;
           ci_result := None |}
  end.

(** First tokens that [parseCommandArgs] answers before it looks for a
    tool. *)
Definition specialTokens : list string :=
  ["--version"; "-v"; "help"; "--help"; "-h"].

Definition specialToken (t : string) : bool :=
  existsb (String.eqb t) specialTokens.

End SharedUtils.

(** ** The logger *)

Module Logger.
Import JsString JsObject.

Inductive LogLevel := TRACE | DEBUG | INFO | WARNING | ERROR | CRITICAL.

(** The numeric values of the enumeration. *)
Definition levelValue (level : LogLevel) : nat :=
  match level with
  | TRACE => 5 | DEBUG => 10 | INFO => 20
  | WARNING => 30 | ERROR => 40 | CRITICAL => 50
  end.

Definition ESC : ascii := "027"%char.

Definition reset : string := String ESC "[0m".
Definition red : string := String ESC "[31m".
Definition green : string := String ESC "[32m".
Definition yellow : string := String ESC "[33m".
Definition blue : string := String ESC "[34m".
Definition magenta : string := String ESC "[35m".
Definition bold : string := String ESC "[1m".

Definition LEVEL_COLORS (level : LogLevel) : string :=
  match level with
  | CRITICAL => red +:+ bold
  | ERROR => red
  | WARNING => yellow
  | INFO => green
  | DEBUG => blue
  | TRACE => magenta
  end.

Definition LEVEL_NAMES (level : LogLevel) : string :=
  match level with
  | CRITICAL => "CRITICAL" | ERROR => "ERROR" | WARNING => "WARNING"
  | INFO => "INFO" | DEBUG => "DEBUG" | TRACE => "TRACE"
  end.

(** [getLogLevelFromEnv]; [variable] is [process.env.VIBE_LOG_LEVEL], and
    [toUpperCase] the method of the runtime's strings. *)
Definition getLogLevelFromEnv (toUpperCase : string -> string)
    (variable : option string) : LogLevel :=
  match toUpperCase <$> variable with
  | None => INFO
  | Some envLevel =>
      if String.eqb envLevel "TRACE" then TRACE
      else if String.eqb envLevel "DEBUG" then DEBUG
      else if String.eqb envLevel "INFO" then INFO
      else if String.eqb envLevel "WARNING" then WARNING
      else if String.eqb envLevel "ERROR" then ERROR
      else if String.eqb envLevel "CRITICAL" then CRITICAL
      else INFO
  end.

(** One logger: its name, its options and whether its file stream is
    open. *)
Record LoggerState := {
  name : string;
  useColors : bool;
  logLevel : LogLevel;
  fileStream : bool
}.

(** [formatLogMessage], at the time stamp [timestamp]. *)
Definition formatLogMessage (lg : LoggerState) (timestamp : string)
    (level : LogLevel) (message : string) : string :=
  if useColors lg then
    timestamp +:+ " - " +:+ LEVEL_COLORS level +:+ LEVEL_NAMES level +:+ reset
    +:+ " - " +:+ name lg +:+ " - " +:+ message
  else
    timestamp +:+ " - " +:+ LEVEL_NAMES level +:+ " - " +:+ name lg
    +:+ " - " +:+ message.

(** [message.replace(/%[sdj%]/g, ...)] with the callback of [log]: [%%]
    gives a percent sign, the other three take the next argument;
    [args] holds the arguments as [String] renders them, and [i] is the
    counter of the callback. *)
Fixpoint replaceConversions (message : string) (args : list string) (i : nat)
    : string :=
  match message with
  | EmptyString => EmptyString
  | String c r =>
      if Ascii.eqb c "%" then
        match r with
        | String d r' =>
            if Ascii.eqb d "%" then String "%" (replaceConversions r' args i)
            else if Ascii.eqb d "s" || Ascii.eqb d "d" || Ascii.eqb d "j" then
              nth i args "undefined" +:+ replaceConversions r' args (S i)
            else String c (replaceConversions r args i)
        | EmptyString => String c EmptyString
        end
      else String c (replaceConversions r args i)
  end.

Definition formatArguments (message : string) (args : list string) : string :=
  if 0 <? length args then replaceConversions message args 0 else message.

Definition isDigit (c : ascii) : bool :=
  (48 <=? nat_of_ascii c) && (nat_of_ascii c <=? 57).

(** The tail [\d+m] of the colour pattern; [seen] tells that a digit has
    been read. *)
Fixpoint digitsThenM (seen : bool) (s : string) : option string :=
  match s with
  | EmptyString => None
  | String c r =>
      if isDigit c then digitsThenM true r
      else if seen && Ascii.eqb c "m" then Some r
      else None
  end.

(** One attempt of [/\x1b\[\d+m/] at the start of [s]: the text after the
    match. *)
Definition colourCodeAt (s : string) : option string :=
  match s with
  | String c (String d r) =>
      if Ascii.eqb c ESC && Ascii.eqb d "[" then digitsThenM false r else None
  | _ => None
  end.

(** [s.replace(/\x1b\[\d+m/g, '')] *)
Fixpoint stripFuel (fuel : nat) (s : string) : string :=
  match fuel with
  | O => s
  | S n =>
      match s with
      | EmptyString => EmptyString
      | String c r =>
          match colourCodeAt s with
          | Some rest => stripFuel n rest
          | None => String c (stripFuel n r)
          end
      end
  end.

Definition stripColours (s : string) : string := stripFuel (String.length s) s.

Inductive ConsoleMethod := console_error | console_warn | console_info | console_debug.

Inductive Output :=
| Console (method : ConsoleMethod) (line : string)
| FileWrite (text : string).

Definition consoleMethod (level : LogLevel) : ConsoleMethod :=
  match level with
  | CRITICAL | ERROR => console_error
  | WARNING => console_warn
  | INFO => console_info
  | DEBUG | TRACE => console_debug
  end.

(** [log], at the time stamp [timestamp]. *)
Definition log (lg : LoggerState) (timestamp : string) (level : LogLevel)
    (message : string) (args : list string) : list Output :=
  if levelValue level <? levelValue (logLevel lg) then []
  else
    let formattedMessage := formatArguments message args in
    let logMessage := formatLogMessage lg timestamp level formattedMessage in
    Console (consoleMethod level) logMessage
    :: (if fileStream lg
        then [FileWrite (stripColours logMessage +:+ String "010" EmptyString)]
        else []).

Definition error (lg : LoggerState) (timestamp message : string) (args : list string)
    : list Output :=
  log lg timestamp ERROR message args.

Definition debug (lg : LoggerState) (timestamp message : string) (args : list string)
    : list Output :=
  log lg timestamp DEBUG message args.

End Logger.

(** ** The shell configuration file written by [install-alias] *)

Module InstallAlias.
Import JsString.

Definition LF : ascii := "010"%char.

(** The code units below 256 that [String.prototype.trim] removes: the
    white space and the line terminators of ECMAScript (TAB, LF, VT, FF,
    CR, SP, NBSP). *)
Definition isWhiteSpace (c : ascii) : bool :=
  existsb (Nat.eqb (nat_of_ascii c)) [9; 10; 11; 12; 13; 32; 160].

(** The code units below 256 that [.] of a regular expression does not
    match: LF and CR. *)
Definition isLineTerminator (c : ascii) : bool :=
  existsb (Nat.eqb (nat_of_ascii c)) [10; 13].

Fixpoint trimStart (s : string) : string :=
  match s with
  | EmptyString => EmptyString
  | String c r => if isWhiteSpace c then trimStart r else s
  end.

Fixpoint trimEnd (s : string) : string :=
  match s with
  | EmptyString => EmptyString
  | String c r =>
      match trimEnd r with
      | EmptyString => if isWhiteSpace c then EmptyString else String c EmptyString
      | r' => String c r'
      end
  end.

(** [s.trim()] *)
Definition trim (s : string) : string := trimEnd (trimStart s).

(** [s.split('\n')] *)
Fixpoint split (s : string) : list string :=
  match s with
  | EmptyString => [EmptyString]
  | String c r =>
      if Ascii.eqb c LF then EmptyString :: split r
      else match split r with
           | line :: lines => String c line :: lines
           | [] => [String c EmptyString]
           end
  end.


(** The text of [s] from index [n] on. *)
Fixpoint from (n : nat) (s : string) : string :=
  match n, s with
  | S m, String _ r => from m r
  | _, _ => s
  end.

Definition brandingComment1 : string := "#===================================".
Definition brandingComment2 : string := "# vibe-cli by www.vibcloud.dev 2025".
Definition brandingComment3 : string := "# https://www.vibecloud.dev/cli".
Definition brandingComment4 : string := "#===================================".
Definition oldAliasMarkerComment : string := "# VibeCLI aliases".

(** [\/(vibe_alias\.sh|vibe_cli\.sh)] at the start of [s]: the length of
    the match. *)
Definition scriptNameAt (s : string) : option nat :=
  match stripPrefix "/vibe_alias.sh" s with
  | Some _ => Some 14
  | None =>
      match stripPrefix "/vibe_cli.sh" s with
      | Some _ => Some 12
      | None => None
      end
  end.

(** [.*\/(vibe_alias\.sh|vibe_cli\.sh)] at the start of [s]: the length of
    the match.  The star is greedy and does not cross a line terminator,
    so the script name is taken at the last place where it stands. *)
Fixpoint greedyTail (s : string) : option nat :=
  match s with
  | EmptyString => None
  | String c r =>
      match (if isLineTerminator c then None else greedyTail r) with
      | Some e => Some (S e)
      | None => scriptNameAt s
      end
  end.

(** One attempt of the pattern of [anyVibeAliasSourcePattern] at the start
    of [s]: the length of the match. *)
Definition matchAt (s : string) : option nat :=
  match stripPrefix "source " s with
  | Some r => (fun e => 7 + e) <$> greedyTail r
  | None => None
  end.

(** The leftmost match in [s]: the index behind it. *)
Fixpoint search (s : string) : option nat :=
  match matchAt s with
  | Some e => Some e
  | None =>
      match s with
      | EmptyString => None
      | String _ r => S <$> search r
      end
  end.

(** [anyVibeAliasSourcePattern.test(s)]: the pattern has the flag [g], so
    the search starts at [lastIndex], and [test] leaves the index behind
    the match in [lastIndex], or 0 when there is no match. *)
Definition test (lastIndex : nat) (s : string) : bool * nat :=
  if String.length s <? lastIndex then (false, 0)
  else match search (from lastIndex s) with
       | Some e => (true, lastIndex + e)
       | None => (false, 0)
       end.

(** The callback of [lines.filter]; [&&] does not evaluate [test] for a
    line that one of the comparisons rejects. *)
Definition keepLine (lastIndex : nat) (line : string) : bool * nat :=
  if negb (String.eqb (trim line) brandingComment1)
     && negb (String.eqb (trim line) brandingComment2)
     && negb (String.eqb (trim line) brandingComment3)
     && negb (String.eqb (trim line) brandingComment4)
     && negb (String.eqb (trim line) oldAliasMarkerComment)
  then (negb (test lastIndex line).1, (test lastIndex line).2)
  else (false, lastIndex).

Fixpoint filterLines (lastIndex : nat) (lines : list string) : list string :=
  match lines with
  | [] => []
  | line :: rest =>
      (if (keepLine lastIndex line).1 then [line] else [])
      ++ filterLines (keepLine lastIndex line).2 rest
  end.

(** [line.trim() === ''] *)
Definition blank (line : string) : bool := String.eqb (trim line) EmptyString.

(** The loop that fills [cleanedLines], from index 1 on; [previous] is
    [lines[i - 1]]. *)
Fixpoint cleanFrom (previous : string) (lines : list string) : list string :=
  match lines with
  | [] => []
  | line :: rest =>
      (if negb (blank line) || negb (blank previous) then [line] else [])
      ++ cleanFrom line rest
  end.

Definition cleanedLines (lines : list string) : list string :=
  match lines with
  | [] => []
  | first :: rest => first :: cleanFrom first rest
  end.

(** The [while] loop that pops the blank lines at the end. *)
Fixpoint popBlank (lines : list string) : list string :=
  match lines with
  | [] => []
  | line :: rest =>
      match popBlank rest with
      | [] => if blank line then [] else [line]
      | kept => line :: kept
      end
  end.

(** [`source ${targetAliasScriptPath}`] *)
Definition sourceLine (targetAliasScriptPath : string) : string :=
  "source " +:+ targetAliasScriptPath.

(** The lines of the old file that are kept. *)
Definition keptLines (lines : list string) : list string :=
  popBlank (cleanedLines (filterLines 0 lines)).

(** The lines that are written: the kept lines, an empty line behind them
    when the last of them is not blank, and the block of the installer. *)
Definition updatedLines (targetAliasScriptPath : string) (lines : list string)
    : list string :=
  let lines := keptLines lines in
  lines
  ++ match last lines with
     | Some line => if negb (blank line) then [EmptyString] else []
     | None => []
     end
  ++ [brandingComment1; brandingComment2; brandingComment3; brandingComment4;
      sourceLine targetAliasScriptPath; EmptyString].


(** The path of the installed script: [path.join(targetCliDir, 'vibe_cli.sh')]
    on a POSIX system. *)
Definition scriptPath (targetCliDir : string) : string :=
  targetCliDir +:+ "/vibe_cli.sh".

(** No two blank lines follow each other. *)
Fixpoint spaced (lines : list string) : bool :=
  match lines with
  | line :: (next :: _) as rest => negb (blank line && blank next) && spaced rest
  | _ => true
  end.

(** A line that the filter of [install-alias] removes when it is scanned
    from its start: one of the comments of the installer, or a line with a
    [source] of one of the scripts. *)
Definition vibeLine (line : string) : bool := negb (keepLine 0 line).1.

Fixpoint everyChar (p : ascii -> bool) (s : string) : bool :=
  match s with
  | EmptyString => true
  | String c r => p c && everyChar p r
  end.

(** A text that [.*] matches as a whole. *)
Definition oneLine (s : string) : bool :=
  everyChar (fun c => negb (isLineTerminator c)) s.

End InstallAlias.

(** ** One table, read by both implementations *)

Module SharedView.

(** A descriptor of the Node entry point as the shared utilities declare
    it: the fields [command], [description] and [handler] of the same
    entry of the command file. *)
Definition sharedConfig (c : NodeMain.CommandConfig) : SharedUtils.CommandConfig :=
  {| SharedUtils.command := NodeMain.command c;
     SharedUtils.description := NodeMain.description c;
     SharedUtils.handler := NodeMain.handler c;
     SharedUtils.args := None |}.

Definition sharedTools (t : NodeMain.ToolCommands) : SharedUtils.ToolCommands :=
  sharedConfig <$> t.

Definition sharedTable (t : NodeMain.AllCommands) : SharedUtils.AllCommands :=
  sharedTools <$> t.

End SharedView.

(** ** The formatter of the specification *)

Module Spec.
Import JsString.

(** Written after section 4.1 of the specification: the template is scanned
    from left to right; the i-th placeholder met is replaced with
    [args[i]] when [i < len(args)] and stays as it is otherwise; what has
    been inserted is not scanned again. *)
Fixpoint substituteFuel (fuel : nat) (template : string) (i : nat)
    (args : list string) : string :=
  match fuel with
  | O => template
  | S n =>
      match template with
      | EmptyString => EmptyString
      | String c r =>
          match matchPlaceholderAt template with
          | Some (placeholder, rest) =>
              (if i <? length args then nth i args EmptyString else placeholder)
              +:+ substituteFuel n rest (S i) args
          | None => String c (substituteFuel n r i args)
          end
      end
  end.

(** The scan of a template whose first placeholder has index [i]. *)
Definition substituteFrom (template : string) (i : nat) (args : list string)
    : string :=
  substituteFuel (String.length template) template i args.

Definition format (template : string) (args : list string) : string :=
  substituteFrom template 0 args.

End Spec.

(** ** A sample installation *)

Module Sample.
Import NodeMain.

Definition descriptor (template descr : string) (names : option (list string))
    : CommandConfig :=
  {| command := Some template; description := Some descr; handler := None;
     telemetry_event := None; package_manager_sensitive := None;
     aliases := names |}.

(** A descriptor with neither a template nor a handler. *)
Definition emptyDescriptor : CommandConfig :=
  {| command := None; description := Some "Not wired up yet"; handler := None;
     telemetry_event := None; package_manager_sensitive := None;
     aliases := None |}.

Definition gitCommands : ToolCommands :=
  {[ "status" := descriptor "git status" "Show the working tree status" None;
     "checkout" := descriptor "git checkout {0}" "Switch branches" (Some ["co"]);
     "stash" := emptyDescriptor ]}.

Definition commands : AllCommands := {[ "git" := gitCommands ]}.

(** A descriptor with a handler and a template. *)
Definition activate : CommandConfig :=
  {| command := Some "source {0}/bin/activate"; description := None;
     handler := Some "python.activate_venv"; telemetry_event := None;
     package_manager_sensitive := None; aliases := None |}.

Definition pythonCommands : AllCommands :=
  {[ "python" := {[ "activate" := activate ]} ]}.

(** Some properties of the built-ins of V8: [caller] of a built-in function
    throws, [name] of [Object] is a string, and a name that a built-in does
    not know gives [undefined]. *)
Definition restricted : JsError :=
  {| message := "'caller', 'callee', and 'arguments' properties may not be "
                +:+ "accessed on strict mode functions or the arguments objects "
                +:+ "for calls to them";
     errStdout := None; errStderr := None |}.

Definition builtins (k1 k2 : string) : JsObject.BuiltinLookup JsError :=
  if String.eqb k2 "caller" && negb (String.eqb k1 "__proto__") then
    JsObject.LookupThrows restricted
  else if String.eqb k1 "constructor" && String.eqb k2 "name" then JsObject.LookupTruthy
  else JsObject.LookupFalsy.

(** The run of [uninstallVibes]: it hands the removal of the Python package
    to the shell, cleans up and returns.  Of its calls the sample keeps the
    one command line; the progress lines it prints are left out. *)
Definition uninstallerRun : Run unit :=
  ([ExecSync "pip uninstall -y vibe-cli"], Value tt).

(** A run of [program.parse] in which the installer cannot create its
    directory and ends the process; the lines it prints are left out. *)
Definition installerRun : Run unit := ([], Exited 1).

(** An installation whose shared directory is found at the first candidate,
    whose command file parses to [table], and whose shell runs every
    command to a clean exit without output. *)
Definition world (table : AllCommands) : World :=
  {| dirPath := fun _ => "/opt/vibe/shared";
     existsSync := fun d => match d with LocalShared => true | _ => false end;
     isTestEnv := false;
     readFileSync := fun _ _ => ReadOk "git: ...";
     yamlLoadCommands := fun _ => YamlTable table;
     yamlLoadPhrases := fun _ => YamlFalsy;
     spawnShell := fun _ => ChildExit 0 EmptyString EmptyString;
     builtinProperty := builtins;
     programParse := fun _ => installerRun;
     uninstallVibes := fun _ => uninstallerRun |}.

(** An installation whose command file cannot be read. *)
Definition worldWithoutFile : World :=
  {| dirPath := fun _ => "/opt/vibe/shared";
     existsSync := fun d => match d with LocalShared => true | _ => false end;
     isTestEnv := false;
     readFileSync := fun _ _ =>
       ReadThrows {| message := "ENOENT: no such file or directory";
                     errStdout := None; errStderr := None |};
     yamlLoadCommands := fun _ => YamlFalsy;
     yamlLoadPhrases := fun _ => YamlFalsy;
     spawnShell := fun _ => SpawnFailed "spawnSync /bin/sh ENOENT";
     builtinProperty := builtins;
     programParse := fun _ => installerRun;
     uninstallVibes := fun _ => uninstallerRun |}.

(** An installation given by what its files hold, what the command file
    parses to and what the shell does. *)
Definition worldOf (read : string -> ReadResult)
    (yaml : string -> YamlResult AllCommands)
    (shell : string -> ChildOutcome) : World :=
  {| dirPath := fun _ => "/opt/vibe/shared";
     existsSync := fun d => match d with LocalShared => true | _ => false end;
     isTestEnv := false;
     readFileSync := fun _ name => read name;
     yamlLoadCommands := yaml;
     yamlLoadPhrases := fun _ => YamlFalsy;
     spawnShell := shell;
     builtinProperty := builtins;
     programParse := fun _ => installerRun;
     uninstallVibes := fun _ => uninstallerRun |}.

(** The shell of a directory that is no git repository. *)
Definition outsideRepository (cmd : string) : ChildOutcome :=
  ChildExit 128 "On branch" "fatal: not a git repository".

(** The shell of a repository whose log outgrows the buffer of [execSync]:
    the child runs to its end with status 0; the text stands for the first
    MiB of its output. *)
Definition longLog (cmd : string) : ChildOutcome :=
  BufferExceeded (Some 0%Z) "commit 9fceb02" EmptyString.

(** The shell for a command line whose binary is not installed. *)
Definition noSuchBinary (cmd : string) : ChildOutcome :=
  ChildExit 127 EmptyString "/bin/sh: 1: gti: not found".

(** The shell of a clean git repository. *)
Definition cleanRepository (cmd : string) : ChildOutcome :=
  ChildExit 0 "nothing to commit" EmptyString.

(** Only the command file is there. *)
Definition onlyCommandFile (name : string) : ReadResult :=
  if String.eqb name "commands.yaml" then ReadOk "git: ..."
  else ReadThrows {| message := "ENOENT: no such file or directory";
                     errStdout := None; errStderr := None |}.

(** A source tree in which no shared directory exists, run under test. *)
Definition underTest : World :=
  {| dirPath := fun _ => "/src/tests/mocks";
     existsSync := fun _ => false;
     isTestEnv := true;
     readFileSync := fun _ _ =>
       ReadThrows {| message := "ENOENT: no such file or directory";
                     errStdout := None; errStderr := None |};
     yamlLoadCommands := fun _ => YamlFalsy;
     yamlLoadPhrases := fun _ => YamlFalsy;
     spawnShell := fun _ => SpawnFailed "spawnSync /bin/sh ENOENT";
     builtinProperty := builtins;
     programParse := fun _ => installerRun;
     uninstallVibes := fun _ => uninstallerRun |}.

(** The same table as the shared utilities read it. *)
Definition sharedCommands : SharedUtils.AllCommands :=
  SharedView.sharedTable commands.

Definition sharedCheckout : SharedUtils.CommandConfig :=
  SharedView.sharedConfig (descriptor "git checkout {0}" "Switch branches" (Some ["co"])).

End Sample.

(** ** Facts about the string primitives *)

Section StringFacts.
Import JsString Template.

Lemma app_String (a : ascii) (s t : string) :
  String a s +:+ t = String a (s +:+ t).
Proof. reflexivity. Qed.

Lemma app_empty_l (s : string) : EmptyString +:+ s = s.
Proof. reflexivity. Qed.

Lemma app_empty_r (s : string) : s +:+ EmptyString = s.
Proof. induction s as [|a s IH]; [reflexivity|]. rewrite app_String, IH. reflexivity. Qed.

Lemma app_assoc_str (s t u : string) : (s +:+ t) +:+ u = s +:+ (t +:+ u).
Proof.
  induction s as [|a s IH]; [reflexivity|].
  rewrite !app_String, IH. reflexivity.
Qed.

Lemma includesChar_app (c : ascii) (s t : string) :
  includesChar c (s +:+ t) = includesChar c s || includesChar c t.
Proof.
  induction s as [|a s IH]; [reflexivity|].
  rewrite app_String. simpl. destruct (Ascii.eqb a c); [reflexivity|exact IH].
Qed.

Lemma untilClose_shape (s body rest : string) :
  untilClose s = Some (body, rest) ->
  s = body +:+ String RBRACE rest /\ includesChar RBRACE body = false.
Proof.
  revert body rest. induction s as [|c r IH]; intros body rest H; simpl in H.
  - discriminate.
  - destruct (Ascii.eqb c RBRACE) eqn:E.
    + apply Ascii.eqb_eq in E. inversion H; subst. split; reflexivity.
    + destruct (untilClose r) as [[b r']|] eqn:U; [|discriminate].
      inversion H; subst. destruct (IH _ _ eq_refl) as [-> Hb].
      split; [reflexivity|]. simpl. rewrite E. exact Hb.
Qed.

Lemma matchPlaceholderAt_shape (s m rest : string) :
  matchPlaceholderAt s = Some (m, rest) ->
  placeholderShape m /\ s = m +:+ rest.
Proof.
  destruct s as [|c r]; simpl; [discriminate|].
  destruct (Ascii.eqb c LBRACE) eqn:E; [|discriminate].
  apply Ascii.eqb_eq in E; subst c.
  destruct (untilClose r) as [[[|b body] rest']|] eqn:U; try discriminate.
  intros H; inversion H; subst.
  destruct (untilClose_shape _ _ _ U) as [-> Hb].
  split.
  - exists b, body. split; [reflexivity|exact Hb].
  - rewrite !app_String. rewrite app_assoc_str. reflexivity.
Qed.

Lemma matchAllFuel_shape (n : nat) (s : string) :
  Forall placeholderShape (matchAllFuel n s).
Proof.
  revert s. induction n as [|n IH]; intros s; simpl; [constructor|].
  destruct s as [|c r]; [constructor|].
  destruct (matchPlaceholderAt (String c r)) as [[m rest]|] eqn:M.
  - constructor; [|apply IH]. apply (matchPlaceholderAt_shape _ _ _ M).
  - apply IH.
Qed.

Lemma removeBraces_no_brace (s : string) :
  includesChar LBRACE s = false -> includesChar RBRACE s = false ->
  removeBraces s = s.
Proof.
  induction s as [|c r IH]; simpl; [reflexivity|].
  destruct (Ascii.eqb c LBRACE); [discriminate|].
  destruct (Ascii.eqb c RBRACE); [discriminate|].
  intros H1 H2. simpl. rewrite IH by assumption. reflexivity.
Qed.

Lemma removeBraces_app (s t : string) :
  removeBraces (s +:+ t) = removeBraces s +:+ removeBraces t.
Proof.
  induction s as [|c r IH]; [reflexivity|].
  rewrite app_String. simpl.
  destruct (Ascii.eqb c LBRACE || Ascii.eqb c RBRACE); [exact IH|].
  rewrite app_String, IH. reflexivity.
Qed.

End StringFacts.

(** ** The two formatters compared *)

Section Formatters.
Import JsString Template.

Lemma rebuilt_placeholder (p : string) :
  placeholderShape p -> innerBrace p = false ->
  String LBRACE (removeBraces p +:+ String RBRACE EmptyString) = p.
Proof.
  intros (b & body & -> & Hb) Hin. cbn [innerBrace] in Hin.
  rewrite includesChar_app in Hin. apply orb_false_iff in Hin as [Hin _].
  change (removeBraces (String LBRACE (String b body +:+ String RBRACE EmptyString)))
    with (removeBraces (String b body +:+ String RBRACE EmptyString)).
  rewrite removeBraces_app, (removeBraces_no_brace _ Hin Hb).
  change (removeBraces (String RBRACE EmptyString)) with EmptyString.
  rewrite app_empty_r. reflexivity.
Qed.

Lemma formatEach_formatLoop (ps : list string) (i : nat) (args : list string)
    (result : string) :
  Forall placeholderShape ps ->
  Forall (fun p => innerBrace p = false) (take (length args - i) ps) ->
  SharedUtils.formatEach ps i args result = NodeMain.formatLoop ps i args result.
Proof.
  revert i result. induction ps as [|p ps IH]; intros i result Hs Hb; [reflexivity|].
  inversion Hs; subst. cbn [SharedUtils.formatEach NodeMain.formatLoop].
  destruct (i <? length args) eqn:Ei.
  - apply Nat.ltb_lt in Ei.
    replace (length args - i) with (S (length args - S i)) in Hb by lia.
    cbn [take] in Hb. inversion Hb; subst.
    rewrite rebuilt_placeholder by assumption. apply IH; assumption.
  - apply Nat.ltb_ge in Ei. apply IH; [assumption|].
    replace (length args - S i) with 0 by lia. constructor.
Qed.

Lemma formatLoop_no_args (ps : list string) (i : nat) (result : string) :
  NodeMain.formatLoop ps i [] result = result.
Proof. revert i result. induction ps as [|p ps IH]; intros; [reflexivity|]. simpl. apply IH. Qed.

Lemma formatEach_no_args (ps : list string) (i : nat) (result : string) :
  SharedUtils.formatEach ps i [] result = result.
Proof. revert i result. induction ps as [|p ps IH]; intros; [reflexivity|]. simpl. apply IH. Qed.

(** C10: with the empty argument list both formatters return the template
    unchanged, whether or not the template contains placeholders. *)
Theorem formatCommand_no_args (template : string) :
  NodeMain.formatCommand template [] = template
  /\ SharedUtils.formatCommand template [] = template.
Proof.
  unfold NodeMain.formatCommand, SharedUtils.formatCommand.
  destruct (includesChar LBRACE template); split; try reflexivity.
  - apply formatLoop_no_args.
  - apply formatEach_no_args.
Qed.

(** C9, as stated, fails: on the template [{{a}] the whole text is one
    placeholder; the Node formatter replaces it, the shared one rebuilds the
    pattern [{a}] and leaves the first brace behind. *)
Lemma formatters_differ :
  NodeMain.formatCommand "{{a}" ["x"] = "x"
  /\ SharedUtils.formatCommand "{{a}" ["x"] = "{x"
  /\ ~ (forall template args,
          NodeMain.formatCommand template args = SharedUtils.formatCommand template args).
Proof.
  split; [reflexivity|]. split; [reflexivity|].
  intros H. specialize (H "{{a}" ["x"]). vm_compute in H. discriminate H.
Qed.

(** C9, amended: the two formatters return the same string whenever none
    of the placeholders that receive an argument (the first [len(args)]
    matches of the pattern in the template) has an opening brace between
    its braces. *)
Theorem formatters_agree (template : string) (args : list string) :
  Forall (fun p => innerBrace p = false)
    (take (length args) (matchPlaceholders template)) ->
  NodeMain.formatCommand template args = SharedUtils.formatCommand template args.
Proof.
  intros H. unfold NodeMain.formatCommand, SharedUtils.formatCommand.
  destruct (includesChar LBRACE template); [|reflexivity].
  symmetry. apply formatEach_formatLoop; [apply matchAllFuel_shape|].
  rewrite Nat.sub_0_r. exact H.
Qed.

Lemma formatters_agree_witness :
  NodeMain.formatCommand "git checkout {0} {{1}" ["main"]
  = SharedUtils.formatCommand "git checkout {0} {{1}" ["main"].
Proof.
  apply formatters_agree. vm_compute. repeat constructor.
Defined.

End Formatters.

(** ** Positional substitution on plain arguments *)

Section Positional.
Import JsString Template.

Lemma length_app_str (s t : string) :
  String.length (s +:+ t) = String.length s + String.length t.
Proof. induction s as [|a s IH]; [reflexivity|]. rewrite app_String. simpl. rewrite IH. reflexivity. Qed.

Lemma matchPlaceholderAt_shorter (s m rest : string) :
  matchPlaceholderAt s = Some (m, rest) -> String.length rest < String.length s.
Proof.
  intros H. destruct (matchPlaceholderAt_shape _ _ _ H) as [(b & body & -> & _) ->].
  rewrite length_app_str. simpl. lia.
Qed.

Lemma matchAllFuel_enough (n m : nat) (s : string) :
  String.length s <= n -> String.length s <= m ->
  matchAllFuel n s = matchAllFuel m s.
Proof.
  revert m s. induction n as [|n IH]; intros m s Hn Hm.
  - destruct s; [|simpl in Hn; lia]. destruct m; reflexivity.
  - destruct m as [|m]; [destruct s; [reflexivity|simpl in Hm; lia]|].
    destruct s as [|c r]; [reflexivity|]. cbn [matchAllFuel]. simpl in Hn, Hm.
    destruct (matchPlaceholderAt (String c r)) as [[p rest]|] eqn:M.
    + apply matchPlaceholderAt_shorter in M. simpl in M.
      apply f_equal. apply IH; lia.
    + apply IH; lia.
Qed.

Lemma matchPlaceholders_step (c : ascii) (r : string) :
  matchPlaceholders (String c r)
  = match matchPlaceholderAt (String c r) with
    | Some (m, rest) => m :: matchPlaceholders rest
    | None => matchPlaceholders r
    end.
Proof.
  unfold matchPlaceholders. cbn [String.length matchAllFuel].
  destruct (matchPlaceholderAt (String c r)) as [[p rest]|] eqn:M.
  - apply matchPlaceholderAt_shorter in M. simpl in M.
    apply f_equal. apply matchAllFuel_enough; lia.
  - apply matchAllFuel_enough; lia.
Qed.

Lemma substituteFuel_enough (n m : nat) (s : string) (i : nat) (args : list string) :
  String.length s <= n -> String.length s <= m ->
  Spec.substituteFuel n s i args = Spec.substituteFuel m s i args.
Proof.
  revert m s i. induction n as [|n IH]; intros m s i Hn Hm.
  - destruct s; [|simpl in Hn; lia]. destruct m; reflexivity.
  - destruct m as [|m]; [destruct s; [reflexivity|simpl in Hm; lia]|].
    destruct s as [|c r]; [reflexivity|]. cbn [Spec.substituteFuel]. simpl in Hn, Hm.
    destruct (matchPlaceholderAt (String c r)) as [[p rest]|] eqn:M.
    + apply matchPlaceholderAt_shorter in M. simpl in M.
      apply f_equal. apply IH; lia.
    + apply f_equal. apply IH; lia.
Qed.

Lemma substituteFrom_step (c : ascii) (r : string) (i : nat) (args : list string) :
  Spec.substituteFrom (String c r) i args
  = match matchPlaceholderAt (String c r) with
    | Some (p, rest) =>
        (if i <? length args then nth i args EmptyString else p)
        +:+ Spec.substituteFrom rest (S i) args
    | None => String c (Spec.substituteFrom r i args)
    end.
Proof.
  unfold Spec.substituteFrom. cbn [String.length Spec.substituteFuel].
  destruct (matchPlaceholderAt (String c r)) as [[p rest]|] eqn:M.
  - apply matchPlaceholderAt_shorter in M. simpl in M.
    apply f_equal. apply substituteFuel_enough; lia.
  - apply f_equal. apply substituteFuel_enough; lia.
Qed.

Lemma inertFrom_app (o : bool) (s t : string) :
  inertFrom o s = true -> inert t = true -> inertFrom o (s +:+ t) = true.
Proof.
  revert o. induction s as [|c r IH]; intros o Hs Ht.
  - destruct o; [discriminate|exact Ht].
  - rewrite app_String. simpl in *. destruct o.
    + apply andb_true_iff in Hs as [-> Hs]. simpl. apply IH; assumption.
    + apply IH; assumption.
Qed.

Lemma inert_app (s t : string) :
  inert s = true -> inert t = true -> inert (s +:+ t) = true.
Proof. apply inertFrom_app. Qed.

Lemma inert_no_brace (s : string) :
  includesChar LBRACE s = false -> inert s = true.
Proof.
  unfold inert. induction s as [|c r IH]; simpl; [reflexivity|].
  destruct (Ascii.eqb c LBRACE); [discriminate|exact IH].
Qed.

Lemma stripPrefix_app (p s : string) : stripPrefix p (p +:+ s) = Some s.
Proof.
  induction p as [|a p IH]; [destruct s; reflexivity|].
  rewrite app_String. simpl. rewrite Ascii.eqb_refl. exact IH.
Qed.

Lemma splitAtFirst_here (p s : string) :
  splitAtFirst p (p +:+ s) = Some (EmptyString, s).
Proof.
  destruct (p +:+ s) eqn:E; simpl; rewrite <- E, stripPrefix_app; reflexivity.
Qed.

Lemma splitAtFirst_miss (p : string) (c : ascii) (r : string) :
  stripPrefix p (String c r) = None ->
  splitAtFirst p (String c r)
  = match splitAtFirst p r with
    | Some (before, after) => Some (String c before, after)
    | None => None
    end.
Proof.
  intros H.
  change (splitAtFirst p (String c r))
    with (match stripPrefix p (String c r) with
          | Some after => Some (EmptyString, after)
          | None => match splitAtFirst p r with
                    | Some (before, after) => Some (String c before, after)
                    | None => None
                    end
          end).
  rewrite H. reflexivity.
Qed.

(** A placeholder does not occur at any position of an inert text, also
    when more text follows. *)
Lemma splitAtFirst_inert (p : string) (o : bool) (l x : string) :
  placeholderShape p -> inertFrom o l = true ->
  splitAtFirst p (l +:+ x)
  = match splitAtFirst p x with
    | Some (before, after) => Some (l +:+ before, after)
    | None => None
    end.
Proof.
  intros (b & body & -> & Hb). cbn [includesChar] in Hb.
  destruct (Ascii.eqb b RBRACE) eqn:Eb; [discriminate|].
  revert o. induction l as [|c r IH]; intros o Hl.
  - rewrite app_empty_l. destruct (splitAtFirst _ x) as [[? ?]|]; reflexivity.
  - rewrite (app_String c r x).
    assert (Hno : stripPrefix
                    (String LBRACE (String b body +:+ String RBRACE EmptyString))
                    (String c (r +:+ x)) = None).
    { cbn [stripPrefix]. destruct (Ascii.eqb LBRACE c) eqn:Ec; [|reflexivity].
      apply Ascii.eqb_eq in Ec. subst c. cbn [inertFrom] in Hl. destruct o.
      - apply andb_true_iff in Hl as [Hc _]. discriminate Hc.
      - rewrite Ascii.eqb_refl in Hl.
        destruct r as [|d r']; [discriminate|].
        cbn [inertFrom] in Hl. apply andb_true_iff in Hl as [Hd _].
        apply Ascii.eqb_eq in Hd. subst d.
        rewrite !app_String. cbn [stripPrefix]. rewrite Eb. reflexivity. }
    rewrite (splitAtFirst_miss _ _ _ Hno).
    assert (Hr : exists o', inertFrom o' r = true).
    { cbn [inertFrom] in Hl. destruct o; [apply andb_true_iff in Hl as [_ Hl]|]; eauto. }
    destruct Hr as [o' Hr]. rewrite (IH o' Hr).
    destruct (splitAtFirst _ x) as [[before after]|]; reflexivity.
Qed.

Lemma getSubstitution_plain (m b a tpl : string) :
  includesChar DOLLAR tpl = false -> getSubstitution m b a tpl = tpl.
Proof.
  induction tpl as [|c r IH]; simpl; [reflexivity|].
  destruct (Ascii.eqb c DOLLAR); [discriminate|].
  intros H. rewrite IH by exact H. reflexivity.
Qed.

(** Replacing a placeholder that stands behind inert text by an argument
    without dollar sign. *)
Lemma replace_behind_inert (l p rest a : string) :
  placeholderShape p -> inert l = true -> includesChar DOLLAR a = false ->
  replace (l +:+ p +:+ rest) p a = l +:+ a +:+ rest.
Proof.
  intros Hp Hl Ha. unfold replace.
  rewrite (splitAtFirst_inert p false l (p +:+ rest) Hp Hl), splitAtFirst_here.
  rewrite app_empty_r, getSubstitution_plain by exact Ha. reflexivity.
Qed.

Lemma untilClose_none (s : string) :
  untilClose s = None -> includesChar RBRACE s = false.
Proof.
  induction s as [|c r IH]; cbn [untilClose includesChar]; [reflexivity|].
  destruct (Ascii.eqb c RBRACE); [discriminate|].
  destruct (untilClose r) as [[? ?]|]; [discriminate|]. intros _. apply IH. reflexivity.
Qed.

Lemma placeholderShape_closes (p : string) :
  placeholderShape p -> includesChar RBRACE p = true.
Proof.
  intros (b & body & -> & _).
  cbn [includesChar]. change (Ascii.eqb LBRACE RBRACE) with false. cbv iota.
  rewrite includesChar_app. cbn [includesChar]. rewrite Ascii.eqb_refl.
  apply orb_true_r.
Qed.

(** A failed attempt at an opening brace that is followed by a closing
    brace further on: the brace is directly followed by a closing one. *)
Lemma failed_attempt (r : string) :
  matchPlaceholderAt (String LBRACE r) = None ->
  includesChar RBRACE r = true ->
  exists r', r = String RBRACE r'.
Proof.
  cbn [matchPlaceholderAt]. rewrite Ascii.eqb_refl.
  destruct (untilClose r) as [[[|b body] rest]|] eqn:U; try discriminate.
  - intros _ _. apply untilClose_shape in U as [-> _]. eauto.
  - intros _ H. rewrite (untilClose_none _ U) in H. discriminate.
Qed.

(** The text in front of the first placeholder is inert, and the formatter
    of the specification copies it. *)
Lemma literal_prefix (s p : string) (ps : list string) :
  matchPlaceholders s = p :: ps ->
  exists l rest,
    s = l +:+ p +:+ rest
    /\ inert l = true
    /\ placeholderShape p
    /\ matchPlaceholders rest = ps
    /\ forall i args,
         Spec.substituteFrom s i args
         = l +:+ (if i <? length args then nth i args EmptyString else p)
             +:+ Spec.substituteFrom rest (S i) args.
Proof.
  induction s as [|c r IH]; [discriminate|].
  rewrite matchPlaceholders_step.
  destruct (matchPlaceholderAt (String c r)) as [[m rest]|] eqn:M.
  - intros H. inversion H; subst.
    destruct (matchPlaceholderAt_shape _ _ _ M) as [Hp Hs].
    exists EmptyString, rest. repeat split; try assumption; try reflexivity.
    intros i args. rewrite substituteFrom_step, M. reflexivity.
  - intros H. destruct (IH H) as (l & rest & Hr & Hl & Hp & Hps & Hsub).
    exists (String c l), rest. repeat split; try assumption.
    + rewrite app_String, <- Hr. reflexivity.
    + unfold inert. cbn [inertFrom].
      destruct (Ascii.eqb c LBRACE) eqn:Ec; [|exact Hl].
      apply Ascii.eqb_eq in Ec. subst c.
      assert (Hclose : includesChar RBRACE r = true).
      { rewrite Hr, !includesChar_app, (placeholderShape_closes _ Hp).
        rewrite orb_true_r. reflexivity. }
      destruct (failed_attempt _ M Hclose) as [r' ->].
      destruct l as [|d l'].
      * destruct Hp as (b & body & -> & _). rewrite app_empty_l in Hr. discriminate Hr.
      * rewrite app_String in Hr. inversion Hr; subst.
        cbn [inertFrom]. rewrite Ascii.eqb_refl. exact Hl.
    + intros i args. rewrite substituteFrom_step, M, Hsub, app_String. reflexivity.
Qed.

Lemma formatLoop_exhausted (ps : list string) (i : nat) (args : list string)
    (result : string) :
  length args <= i -> NodeMain.formatLoop ps i args result = result.
Proof.
  revert i result. induction ps as [|p ps IH]; intros i result H; [reflexivity|].
  cbn [NodeMain.formatLoop].
  replace (i <? length args) with false by (symmetry; apply Nat.ltb_ge; exact H).
  apply IH. lia.
Qed.

Lemma substituteFuel_exhausted (n : nat) (s : string) (i : nat) (args : list string) :
  length args <= i -> Spec.substituteFuel n s i args = s.
Proof.
  revert s i. induction n as [|n IH]; intros s i H; [reflexivity|].
  destruct s as [|c r]; [reflexivity|]. cbn [Spec.substituteFuel].
  destruct (matchPlaceholderAt (String c r)) as [[p rest]|] eqn:M.
  - replace (i <? length args) with false by (symmetry; apply Nat.ltb_ge; exact H).
    rewrite IH by lia. symmetry. apply (matchPlaceholderAt_shape _ _ _ M).
  - rewrite IH by exact H. reflexivity.
Qed.

Lemma substituteFrom_no_placeholders (s : string) (i : nat) (args : list string) :
  matchPlaceholders s = [] -> Spec.substituteFrom s i args = s.
Proof.
  induction s as [|c r IH]; [reflexivity|].
  rewrite matchPlaceholders_step, substituteFrom_step.
  destruct (matchPlaceholderAt (String c r)) as [[p rest]|]; [discriminate|].
  intros H. rewrite (IH H). reflexivity.
Qed.

Lemma no_brace_no_placeholders (s : string) :
  includesChar LBRACE s = false -> matchPlaceholders s = [].
Proof.
  induction s as [|c r IH]; [reflexivity|].
  rewrite matchPlaceholders_step. cbn [includesChar matchPlaceholderAt].
  destruct (Ascii.eqb c LBRACE); [discriminate|exact IH].
Qed.

Lemma formatLoop_positional (args : list string) :
  Forall plainArgument args ->
  forall (ps : list string) (s l : string) (i : nat),
    matchPlaceholders s = ps -> inert l = true ->
    NodeMain.formatLoop ps i args (l +:+ s) = l +:+ Spec.substituteFrom s i args.
Proof.
  intros Hargs. induction ps as [|p ps IH]; intros s l i Hps Hl.
  - rewrite (substituteFrom_no_placeholders _ _ _ Hps). reflexivity.
  - destruct (literal_prefix _ _ _ Hps) as (l0 & rest & -> & Hl0 & Hp & Hrest & Hsub).
    cbn [NodeMain.formatLoop]. destruct (i <? length args) eqn:Ei.
    + apply Nat.ltb_lt in Ei.
      assert (Ha : plainArgument (nth i args EmptyString)).
      { apply (proj1 (List.Forall_forall _ _) Hargs). apply List.nth_In. exact Ei. }
      destruct Ha as [Hbrace Hdollar].
      rewrite <- (app_assoc_str l l0 (p +:+ rest)).
      rewrite (replace_behind_inert _ _ _ _ Hp (inert_app _ _ Hl Hl0) Hdollar).
      rewrite <- (app_assoc_str (l +:+ l0)).
      rewrite (IH rest _ (S i) Hrest
                 (inert_app _ _ (inert_app _ _ Hl Hl0) (inert_no_brace _ Hbrace))).
      rewrite Hsub. replace (i <? length args) with true by (symmetry; apply Nat.ltb_lt; exact Ei).
      rewrite !app_assoc_str. reflexivity.
    + apply Nat.ltb_ge in Ei.
      rewrite formatLoop_exhausted by lia.
      unfold Spec.substituteFrom. rewrite substituteFuel_exhausted by exact Ei. reflexivity.
Qed.

(** On arguments with neither an opening brace nor a dollar sign the Node
    formatter is the formatter of the specification: the i-th placeholder
    is replaced with the i-th argument, placeholders beyond the arguments
    stay, and the enough-fuel scans agree. *)
Theorem formatCommand_positional (template : string) (args : list string) :
  Forall plainArgument args ->
  NodeMain.formatCommand template args = Spec.format template args.
Proof.
  intros Hargs. unfold NodeMain.formatCommand.
  change (Spec.format template args) with (Spec.substituteFrom template 0 args).
  destruct (includesChar LBRACE template) eqn:E.
  - exact (formatLoop_positional args Hargs _ template EmptyString 0 eq_refl eq_refl).
  - rewrite (substituteFrom_no_placeholders _ _ _ (no_brace_no_placeholders _ E)).
    reflexivity.
Qed.

(** The same for the formatter of the shared utilities, on templates whose
    placeholders have no opening brace between their braces. *)
Corollary shared_formatCommand_positional (template : string) (args : list string) :
  Forall plainArgument args ->
  Forall (fun p => innerBrace p = false)
    (take (length args) (matchPlaceholders template)) ->
  SharedUtils.formatCommand template args = Spec.format template args.
Proof.
  intros Hargs Hps.
  rewrite <- (formatCommand_positional template args Hargs).
  unfold NodeMain.formatCommand, SharedUtils.formatCommand.
  destruct (includesChar LBRACE template); [|reflexivity].
  apply formatEach_formatLoop; [apply matchAllFuel_shape|].
  rewrite Nat.sub_0_r. exact Hps.
Qed.

End Positional.

(** ** The effect layer *)

Section RunFacts.
Import NodeMain.

Lemma bind_value {A B : Type} (m : Run A) (k : A -> Run B) (a : A) :
  outcome m = Value a ->
  bind m k = (trace m ++ trace (k a), outcome (k a)).
Proof.
  destruct m as [t o]; simpl; intros ->. simpl. destruct (k a); reflexivity.
Qed.

Lemma bind_exited {A B : Type} (m : Run A) (k : A -> Run B) (c : Z) :
  outcome m = Exited c -> bind m k = (trace m, Exited c).
Proof. destruct m as [t o]; simpl; intros ->. reflexivity. Qed.

Lemma bind_ret_l {A B : Type} (a : A) (k : A -> Run B) : bind (ret a) k = k a.
Proof. unfold bind, ret. destruct (k a); reflexivity. Qed.

Lemma run_eta {A : Type} (m : Run A) : m = (trace m, outcome m).
Proof. destruct m; reflexivity. Qed.

Lemma loaderEvent_not_resolution (e : Event) :
  loaderEvent e = true -> resolutionEvent e = false.
Proof. destruct e; simpl; congruence. Qed.

Lemma getSharedDir_returns (w : World) :
  exists d, outcome (getSharedDir w) = Value d
            /\ Forall (fun e => loaderEvent e = true) (trace (getSharedDir w)).
Proof.
  unfold getSharedDir.
  destruct (existsSync w LocalShared); [eexists; split; [reflexivity|repeat constructor]|].
  destruct (existsSync w ProjectShared); [eexists; split; [reflexivity|repeat constructor]|].
  destruct (existsSync w PackageShared); [eexists; split; [reflexivity|repeat constructor]|].
  destruct (isTestEnv w).
  - destruct (existsSync w MockDir); eexists; (split; [reflexivity|repeat constructor]).
  - eexists; split; [reflexivity|repeat constructor].
Qed.

Lemma getSharedDir_sharedDirOf (w : World) :
  outcome (getSharedDir w) = Value (sharedDirOf w).
Proof.
  unfold sharedDirOf. destruct (getSharedDir_returns w) as (d & -> & _). reflexivity.
Qed.

Lemma loadCommands_returns (w : World) :
  exists table, outcome (loadCommands w) = Value table
                /\ Forall (fun e => loaderEvent e = true) (trace (loadCommands w)).
Proof.
  unfold loadCommands.
  destruct (getSharedDir_returns w) as (d & Hd & Ht).
  rewrite (bind_value _ _ _ Hd). unfold readFile.
  destruct (readFileSync w d "commands.yaml") as [contents|e]; simpl.
  - destruct (yamlLoadCommands w contents) as [e| |t]; simpl;
      eexists; (split; [reflexivity|]); rewrite ?app_nil_r; try exact Ht.
    apply Forall_app; split; [exact Ht|repeat constructor].
  - eexists; split; [reflexivity|].
    apply Forall_app; split; [exact Ht|repeat constructor].
Qed.

Lemma loadNaturalLanguageCommands_returns (w : World) :
  exists table, outcome (loadNaturalLanguageCommands w) = Value table
                /\ Forall (fun e => loaderEvent e = true)
                     (trace (loadNaturalLanguageCommands w)).
Proof.
  unfold loadNaturalLanguageCommands.
  destruct (getSharedDir_returns w) as (d & Hd & Ht).
  rewrite (bind_value _ _ _ Hd). unfold readFile.
  destruct (readFileSync w d "vibe_language_commands.yaml") as [contents|e]; simpl.
  - destruct (yamlLoadPhrases w contents) as [e| |t]; simpl;
      eexists; (split; [reflexivity|]); rewrite ?app_nil_r; try exact Ht.
    apply Forall_app; split; [exact Ht|repeat constructor].
  - eexists; split; [reflexivity|].
    apply Forall_app; split; [exact Ht|repeat constructor].
Qed.

Lemma loadCommands_failure (w : World) (e : JsError) :
  commandFileFails w e ->
  loadCommands w
  = (trace (getSharedDir w) ++ [LoggerError ("Failed to load commands: " +:+ message e)],
     Value ∅).
Proof.
  intros H. unfold loadCommands.
  rewrite (bind_value _ _ _ (getSharedDir_sharedDirOf w)). unfold readFile.
  destruct H as [-> | (contents & -> & Hy)]; simpl.
  - reflexivity.
  - rewrite Hy. reflexivity.
Qed.

(** [main] behind the two installer subcommands: both tables are loaded,
    then [dispatch] runs. *)
Lemma main_loaded (w : World) (cliArgs : list string) (table : AllCommands) :
  argIs 0 "install-alias" cliArgs = false ->
  argIs 0 "uninstall" cliArgs = false ->
  outcome (loadCommands w) = Value table ->
  main w cliArgs
  = (trace (loadCommands w) ++ trace (loadNaturalLanguageCommands w)
       ++ trace (dispatch w table cliArgs),
     outcome (dispatch w table cliArgs)).
Proof.
  intros H1 H2 Ht. unfold main. rewrite H1, H2.
  rewrite (bind_value _ _ _ Ht).
  destruct (loadNaturalLanguageCommands_returns w) as (nl & Hnl & _).
  rewrite (bind_value _ _ _ Hnl). simpl. rewrite app_assoc. reflexivity.
Qed.

Lemma dispatch_empty (w : World) (cliArgs : list string) :
  dispatch w ∅ cliArgs
  = ([LoggerError "Failed to load command definitions";
      ConsoleError "Error: Failed to load command definitions"], Exited 1).
Proof. reflexivity. Qed.

End RunFacts.

(** ** The shell executor and the loader *)

Section ExecutorAndLoader.
Import JsObject NodeMain.

(** C4, as stated, fails: a child that runs to its end with exit status 0,
    but writes more than the buffer of [execSync] holds, is reported with
    [success = false]. *)
Lemma exit_status_0_reported_as_failure :
  exitStatus (spawnShell (Sample.worldOf Sample.onlyCommandFile
                            (fun _ => YamlTable Sample.commands) Sample.longLog)
                "git log")
  = Some 0%Z
  /\ executeShellCommand
       (Sample.worldOf Sample.onlyCommandFile
          (fun _ => YamlTable Sample.commands) Sample.longLog)
       "git log"
     = ([ExecSync "git log"],
        Value {| type := "shell"; success := Some false;
                 error := Some "spawnSync /bin/sh ENOBUFS";
                 stdout := Some "commit 9fceb02"; stderr := Some EmptyString |}).
Proof. split; reflexivity. Qed.

(** C4, amended: [executeShellCommand] always returns a structured result
    and never raises.  The result reports success exactly when the child
    process exits with status 0 and its output stays within the buffer of
    [execSync]; every other fate of the child is captured as the error
    message of a result that reports failure: [Command failed], with the
    command line and the standard error of the child, for another exit
    status (127 and 126 are how the shell reports a binary that is not
    found or may not be run) and for a signal, the error of [spawnSync] for
    an outgrown buffer and for a shell that could not be started. *)
Theorem executeShellCommand_structured (w : World) (cmd : string) :
  exists r : CommandResult,
    outcome (executeShellCommand w cmd) = Value r
    /\ type r = "shell"
    /\ (success r = Some true <->
        exists out err, spawnShell w cmd = ChildExit 0 out err)
    /\ (success r = Some true ->
        stdout r = Some (capturedStdout (spawnShell w cmd))
        /\ stderr r = None /\ error r = None)
    /\ (success r <> Some true ->
        success r = Some false
        /\ error r = Some (failureMessage cmd (spawnShell w cmd))
        /\ stderr r = Some (capturedStderr (spawnShell w cmd))
        /\ stdout r = Some (capturedStdout (spawnShell w cmd))).
Proof.
  unfold executeShellCommand, execSync.
  destruct (spawnShell w cmd) as [status out err|sig out err|exited out err|reason] eqn:E.
  - destruct (Z.eqb_spec status 0) as [->|Hs].
    + exists {| type := "shell"; success := Some true; stdout := Some out;
                stderr := None; error := None |}.
      split; [destruct (truthy (Some err)); reflexivity|].
      split; [reflexivity|]. split; [split; eauto|].
      split; [intros _; repeat split|intros H; contradiction H; reflexivity].
    + exists {| type := "shell"; success := Some false;
                error := Some (commandFailed cmd err);
                stdout := Some (orEmpty (Some out));
                stderr := Some (orEmpty (Some err)) |}.
      split; [destruct (truthy (Some err)); reflexivity|].
      split; [reflexivity|]. split.
      { split; [discriminate|]. intros (o & e' & H). inversion H. contradiction. }
      split; [discriminate|]. intros _. cbn [success error stderr stdout].
      destruct out, err; repeat split.
  - exists {| type := "shell"; success := Some false;
              error := Some (commandFailed cmd err);
              stdout := Some (orEmpty (Some out));
              stderr := Some (orEmpty (Some err)) |}.
    split; [destruct (truthy (Some err)); reflexivity|].
    split; [reflexivity|]. split.
    { split; [discriminate|]. intros (o & e' & H). discriminate H. }
    split; [discriminate|]. intros _. cbn [success error stderr stdout].
    destruct out, err; repeat split.
  - exists {| type := "shell"; success := Some false;
              error := Some ENOBUFS;
              stdout := Some (orEmpty (Some out));
              stderr := Some (orEmpty (Some err)) |}.
    split; [destruct (truthy (Some err)); reflexivity|].
    split; [reflexivity|]. split.
    { split; [discriminate|]. intros (o & e' & H). discriminate H. }
    split; [discriminate|]. intros _. cbn [success error stderr stdout].
    destruct out, err; repeat split.
  - exists {| type := "shell"; success := Some false; error := Some reason;
              stdout := Some EmptyString; stderr := Some EmptyString |}.
    split; [reflexivity|]. split; [reflexivity|]. split.
    { split; [discriminate|]. intros (o & e' & H). discriminate H. }
    split; [discriminate|]. intros _. repeat split.
Qed.

(** A binary that is not found: the shell exits with status 127, and the
    result carries [Command failed] with the complaint of the shell. *)
Example binary_not_found :
  executeShellCommand
    (Sample.worldOf Sample.onlyCommandFile
       (fun _ => YamlTable Sample.commands) Sample.noSuchBinary)
    "gti status"
  = ([ExecSync "gti status"; StderrWrite "/bin/sh: 1: gti: not found"],
     Value {| type := "shell"; success := Some false;
              error := Some ("Command failed: gti status"
                             +:+ String "010" "/bin/sh: 1: gti: not found");
              stdout := Some EmptyString;
              stderr := Some "/bin/sh: 1: gti: not found" |}).
Proof. reflexivity. Qed.

(** C5, as stated, fails: at an installation without a command file, where
    [loadCommands] returns the empty table, the arguments [uninstall] give
    a run that prints no error about the table and ends normally; [main]
    hands them to [uninstallVibes] before any table is loaded. *)
Lemma uninstall_loads_no_table :
  outcome (loadCommands Sample.worldWithoutFile) = Value ∅
  /\ main Sample.worldWithoutFile ["uninstall"]
     = ([UninstallVibes []; ExecSync "pip uninstall -y vibe-cli"], Value tt).
Proof. split; reflexivity. Qed.

(** C5, amended: a command file that is missing or does not parse makes
    [loadCommands] log an error and return the empty table, and it never
    raises; and whenever [main] loads an empty table, which it does for all
    arguments but the installer subcommands, the run prints an error and
    exits with code 1 straight after loading: it renders no help, looks up
    no command and executes nothing.  The installer subcommands are handed
    to their callees before any table is loaded. *)
Theorem empty_table_is_fatal (w : World) (cliArgs : list string) :
  (exists table, outcome (loadCommands w) = Value table)
  /\ (forall e, commandFileFails w e ->
        outcome (loadCommands w) = Value ∅
        /\ In (LoggerError ("Failed to load commands: " +:+ message e))
              (trace (loadCommands w)))
  /\ (installerArgs cliArgs = false ->
      outcome (loadCommands w) = Value ∅ ->
        main w cliArgs
        = (trace (loadCommands w) ++ trace (loadNaturalLanguageCommands w)
             ++ [LoggerError "Failed to load command definitions";
                 ConsoleError "Error: Failed to load command definitions"],
           Exited 1)
        /\ Forall (fun e => resolutionEvent e = false) (trace (main w cliArgs)))
  /\ (installerArgs cliArgs = true ->
        main w cliArgs
        = (if argIs 0 "install-alias" cliArgs
           then (ProgramParse cliArgs :: trace (programParse w cliArgs),
                 outcome (programParse w cliArgs))
           else (UninstallVibes (drop 1 cliArgs)
                   :: trace (uninstallVibes w (drop 1 cliArgs)),
                 outcome (uninstallVibes w (drop 1 cliArgs))))).
Proof.
  split; [|split; [|split]].
  - destruct (loadCommands_returns w) as (t & Ht & _). eauto.
  - intros e He. rewrite (loadCommands_failure _ _ He). simpl. split; [reflexivity|].
    apply in_or_app. right. left. reflexivity.
  - intros Hi Hempty. unfold installerArgs in Hi. apply orb_false_iff in Hi.
    destruct Hi as [H1 H2].
    assert (Hmain : main w cliArgs
                    = (trace (loadCommands w) ++ trace (loadNaturalLanguageCommands w)
                         ++ [LoggerError "Failed to load command definitions";
                             ConsoleError "Error: Failed to load command definitions"],
                       Exited 1)).
    { rewrite (main_loaded _ _ _ H1 H2 Hempty), dispatch_empty. reflexivity. }
    split; [exact Hmain|]. rewrite Hmain. simpl.
    destruct (loadCommands_returns w) as (t & _ & Ht).
    destruct (loadNaturalLanguageCommands_returns w) as (nl & _ & Hnl).
    repeat (apply Forall_app; split).
    + eapply Forall_impl; [exact Ht|]. intros e. apply loaderEvent_not_resolution.
    + eapply Forall_impl; [exact Hnl|]. intros e. apply loaderEvent_not_resolution.
    + repeat constructor.
  - intros Hi. unfold installerArgs in Hi. unfold main.
    destruct (argIs 0 "install-alias" cliArgs).
    + destruct (programParse w cliArgs) as [t [[]|e|c]]; reflexivity.
    + cbn [orb] in Hi. rewrite Hi.
      destruct (uninstallVibes w (drop 1 cliArgs)) as [t [[]|e|c]]; reflexivity.
Qed.

(** The theorem at an installation without a command file. *)
Lemma empty_table_is_fatal_witness :
  main Sample.worldWithoutFile ["git"; "status"]
  = ([LoggerDebug "Found shared directory at /opt/vibe/shared";
      LoggerError "Failed to load commands: ENOENT: no such file or directory";
      LoggerDebug "Found shared directory at /opt/vibe/shared";
      LoggerError "Failed to load natural language commands: ENOENT: no such file or directory";
      LoggerError "Failed to load command definitions";
      ConsoleError "Error: Failed to load command definitions"],
     Exited 1).
Proof.
  destruct (empty_table_is_fatal Sample.worldWithoutFile ["git"; "status"])
    as (_ & _ & H & _).
  destruct (H eq_refl eq_refl) as [Hmain _].
  rewrite Hmain. reflexivity.
Defined.

End ExecutorAndLoader.

(** ** The resolver of the Node entry point *)

Section Resolver.
Import JsObject NodeMain.

Lemma size_of_inhabited {V : Type} (m : gmap string V) (k : string) (v : V) :
  m !! k = Some v -> (size m =? 0) = false.
Proof.
  intros H. apply Nat.eqb_neq. intros Hs.
  apply map_size_empty_iff in Hs. subst m. rewrite lookup_empty in H. discriminate.
Qed.

Lemma getProperty_own {V : Type} (m : gmap string V) (k : string) (v : V) :
  m !! k = Some v -> getProperty m k = Own v.
Proof. unfold getProperty. intros ->. reflexivity. Qed.

Lemma getProperty_undefined {V : Type} (m : gmap string V) (k : string) :
  m !! k = None -> isPrototypeKey k = false -> getProperty m k = Undefined.
Proof. unfold getProperty. intros -> ->. reflexivity. Qed.

Lemma eqb_false_of_neq (a b : string) : a <> b -> String.eqb a b = false.
Proof. apply String.eqb_neq. Qed.

(** [dispatch] on a known tool followed by a token that is not [help]: the
    command lookup is reached. *)
Lemma dispatch_known_tool (w : World) (table : AllCommands) (toolName a1 : string)
    (toolCommands : ToolCommands) (rest : list string) :
  reservedWord toolName = false ->
  table !! toolName = Some toolCommands ->
  a1 <> "help" ->
  dispatch w table (toolName :: a1 :: rest)
  = match getProperty toolCommands a1 with
    | Undefined =>
        ([LoggerError ("Unknown command: " +:+ toolName +:+ " " +:+ a1);
          ConsoleError ("Error: Unknown command: " +:+ toolName +:+ " " +:+ a1);
          PrintToolHelp toolName toolCommands], Exited 1)
    | Inherited =>
        if argIs 0 "help" rest then ([PrintCommandHelpBuiltin toolName a1], Value tt)
        else ([ConsoleError "Error: Invalid command configuration"], Exited 1)
    | Own cfg =>
        if argIs 0 "help" rest then ([PrintCommandHelp toolName a1 cfg], Value tt)
        else if truthy (handler cfg) then
          ([ConsoleLog ("Handler execution: " +:+ interpolate (handler cfg))], Value tt)
        else if truthy (command cfg) then
          do result <- executeShellCommand w
                         (formatCommand (interpolate (command cfg)) rest) in
          if bool_decide (success result = Some true) then
            when (truthy (stdout result))
              (emit (StdoutWrite (interpolate (stdout result))))
          else
            emit (ConsoleError ("Error executing command: " +:+ interpolate (error result))) >>
            when (truthy (stderr result))
              (emit (StderrWrite (interpolate (stderr result)))) >>
            processExit 1
        else ([ConsoleError "Error: Invalid command configuration"], Exited 1)
    end.
Proof.
  intros Hr Ht Ha.
  unfold reservedWord, reservedWords in Hr. simpl in Hr.
  repeat (apply orb_false_iff in Hr as [? Hr]).
  set (l := toolName :: a1 :: rest).
  assert (E1 : (length l =? 0) || argIs 0 "help" l || argIs 0 "--help" l = false).
  { unfold argIs, l. simpl. apply orb_false_iff. split; assumption. }
  assert (E2 : argIs 0 "--version" l || argIs 0 "-v" l = false).
  { unfold argIs, l. simpl. apply orb_false_iff. split; assumption. }
  assert (E3 : (length l =? 1) || ((1 <? length l) && argIs 1 "help" l) = false).
  { unfold argIs, l. simpl. apply String.eqb_neq. exact Ha. }
  assert (E4 : (2 <? length l) && argIs 2 "help" l = argIs 0 "help" rest).
  { unfold argIs, l. simpl. destruct rest; reflexivity. }
  unfold dispatch, builtinCommand. fold l.
  rewrite (size_of_inhabited _ _ _ Ht), E1, E2.
  unfold when at 1. rewrite bind_ret_l.
  change (nth 0 l EmptyString) with toolName.
  change (nth 1 l EmptyString) with a1.
  change (drop 2 l) with rest.
  cbv zeta. rewrite (getProperty_own _ _ _ Ht), E3, E4.
  destruct (getProperty toolCommands a1) as [cfg| |];
    [reflexivity|destruct (argIs 0 "help" rest); reflexivity|reflexivity].
Qed.

Lemma main_known_tool (w : World) (table : AllCommands) (toolName a1 : string)
    (toolCommands : ToolCommands) (rest : list string) :
  outcome (loadCommands w) = Value table ->
  reservedWord toolName = false ->
  table !! toolName = Some toolCommands ->
  a1 <> "help" ->
  main w (toolName :: a1 :: rest)
  = (trace (loadCommands w) ++ trace (loadNaturalLanguageCommands w)
       ++ trace (dispatch w table (toolName :: a1 :: rest)),
     outcome (dispatch w table (toolName :: a1 :: rest))).
Proof.
  intros Hl Hr Ht Ha. apply main_loaded; [| |exact Hl];
    unfold reservedWord, reservedWords in Hr; simpl in Hr;
    repeat (apply orb_false_iff in Hr as [? Hr]); unfold argIs; simpl; assumption.
Qed.

(** C6, as stated, fails: the loader hands over a table that holds a
    descriptor with neither a template nor a handler, without an error, and
    the invalid configuration is reported when that command is invoked. *)
Lemma invalid_descriptor_passes_loading :
  loadCommands (Sample.world Sample.commands)
  = ([LoggerDebug "Found shared directory at /opt/vibe/shared"], Value Sample.commands)
  /\ Sample.commands !! "git" = Some Sample.gitCommands
  /\ Sample.gitCommands !! "stash" = Some Sample.emptyDescriptor
  /\ command Sample.emptyDescriptor = None
  /\ handler Sample.emptyDescriptor = None
  /\ main (Sample.world Sample.commands) ["git"; "stash"]
     = ([LoggerDebug "Found shared directory at /opt/vibe/shared";
         LoggerDebug "Found shared directory at /opt/vibe/shared";
         ConsoleError "Error: Invalid command configuration"], Exited 1).
Proof. repeat split; vm_compute; reflexivity. Qed.

(** C6, amended: a descriptor with neither a template nor a handler is not
    rejected at load time; [loadCommands] returns the parsed table as it is,
    and the invalid configuration is reported by [main], with exit code 1,
    when that command is invoked for execution. *)
Theorem invalid_descriptor_fails_at_execution (w : World) (contents : string)
    (table : AllCommands) (toolName commandName : string)
    (toolCommands : ToolCommands) (cfg : CommandConfig) (rest : list string) :
  readFileSync w (sharedDirOf w) "commands.yaml" = ReadOk contents ->
  yamlLoadCommands w contents = YamlTable table ->
  table !! toolName = Some toolCommands ->
  toolCommands !! commandName = Some cfg ->
  truthy (handler cfg) = false ->
  truthy (command cfg) = false ->
  reservedWord toolName = false ->
  commandName <> "help" ->
  argIs 0 "help" rest = false ->
  loadCommands w = (trace (getSharedDir w), Value table)
  /\ main w (toolName :: commandName :: rest)
     = (trace (loadCommands w) ++ trace (loadNaturalLanguageCommands w)
          ++ [ConsoleError "Error: Invalid command configuration"],
        Exited 1).
Proof.
  intros Hread Hyaml Ht Hc Hh Hcmd Hr Hn Hrest.
  assert (Hload : loadCommands w = (trace (getSharedDir w), Value table)).
  { unfold loadCommands.
    rewrite (bind_value _ _ _ (getSharedDir_sharedDirOf w)). unfold readFile.
    rewrite Hread. simpl. rewrite Hyaml. simpl. rewrite app_nil_r. reflexivity. }
  split; [exact Hload|].
  assert (Hout : outcome (loadCommands w) = Value table) by (rewrite Hload; reflexivity).
  rewrite (main_known_tool _ _ _ _ _ _ Hout Hr Ht Hn).
  rewrite (dispatch_known_tool _ _ _ _ _ _ Hr Ht Hn).
  rewrite (getProperty_own _ _ _ Hc), Hrest, Hh, Hcmd. reflexivity.
Qed.

Lemma invalid_descriptor_fails_at_execution_witness :
  main (Sample.world Sample.commands) ["git"; "stash"; "pop"]
  = ([LoggerDebug "Found shared directory at /opt/vibe/shared";
      LoggerDebug "Found shared directory at /opt/vibe/shared";
      ConsoleError "Error: Invalid command configuration"], Exited 1).
Proof.
  refine (proj2 (invalid_descriptor_fails_at_execution
            (Sample.world Sample.commands) "git: ..." Sample.commands "git" "stash"
            Sample.gitCommands Sample.emptyDescriptor ["pop"] _ _ _ _ _ _ _ _ _));
    try reflexivity.
  discriminate.
Defined.

(** C7, at the failing input: the command lookup consults the names of the
    tool's table only.  A second token that is an alias of a descriptor of
    the tool, as the field [aliases] of [CommandConfig] declares it, and
    not itself a command name of the table, is answered with the
    unknown-command error, the tool's help and exit code 1: the alias sets
    are read nowhere. *)
Theorem alias_is_not_resolved (w : World) (table : AllCommands)
    (toolName a1 commandName : string) (toolCommands : ToolCommands)
    (cfg : CommandConfig) (names rest : list string) :
  outcome (loadCommands w) = Value table ->
  reservedWord toolName = false ->
  table !! toolName = Some toolCommands ->
  toolCommands !! commandName = Some cfg ->
  aliases cfg = Some names ->
  In a1 names ->
  toolCommands !! a1 = None ->
  isPrototypeKey a1 = false ->
  a1 <> "help" ->
  main w (toolName :: a1 :: rest)
  = (trace (loadCommands w) ++ trace (loadNaturalLanguageCommands w)
       ++ [LoggerError ("Unknown command: " +:+ toolName +:+ " " +:+ a1);
           ConsoleError ("Error: Unknown command: " +:+ toolName +:+ " " +:+ a1);
           PrintToolHelp toolName toolCommands],
     Exited 1).
Proof.
  intros Hl Hr Ht _ _ _ Hc Hp Ha.
  rewrite (main_known_tool _ _ _ _ _ _ Hl Hr Ht Ha).
  rewrite (dispatch_known_tool _ _ _ _ _ _ Hr Ht Ha).
  rewrite (getProperty_undefined _ _ Hc Hp). reflexivity.
Qed.

(** The theorem at [vibe git co main], where [co] is an alias of the
    descriptor [checkout] of the tool [git]. *)
Lemma alias_is_not_resolved_witness :
  main (Sample.world Sample.commands) ["git"; "co"; "main"]
  = ([LoggerDebug "Found shared directory at /opt/vibe/shared";
      LoggerDebug "Found shared directory at /opt/vibe/shared";
      LoggerError "Unknown command: git co";
      ConsoleError "Error: Unknown command: git co";
      PrintToolHelp "git" Sample.gitCommands], Exited 1).
Proof.
  refine (alias_is_not_resolved (Sample.world Sample.commands) Sample.commands
            "git" "co" "checkout" Sample.gitCommands
            (Sample.descriptor "git checkout {0}" "Switch branches" (Some ["co"]))
            ["co"] ["main"] _ _ _ _ _ _ _ _ _);
    try reflexivity.
  - left. reflexivity.
  - discriminate.
Defined.

(** The first row of the resolution table, for the tokens the Node entry
    point knows: no argument, [help] and [--help] print the general help. *)
Lemma general_help (w : World) (table : AllCommands) (cliArgs : list string) :
  (size table =? 0) = false ->
  cliArgs = [] \/ argIs 0 "help" cliArgs = true \/ argIs 0 "--help" cliArgs = true ->
  dispatch w table cliArgs = ([PrintGeneralHelp table], Value tt).
Proof.
  intros Hs H. unfold dispatch. rewrite Hs. unfold when at 1. rewrite bind_ret_l.
  destruct H as [-> | [H | H]]; [reflexivity| |]; rewrite H.
  - rewrite orb_true_r. reflexivity.
  - rewrite !orb_true_r. reflexivity.
Qed.

(** Help precedence: for a known tool, the tool alone and the tool followed
    by [help] print the same tool help. *)
Lemma tool_help_same (w : World) (table : AllCommands) (toolName : string)
    (toolCommands : ToolCommands) (rest : list string) :
  reservedWord toolName = false ->
  table !! toolName = Some toolCommands ->
  dispatch w table [toolName] = ([PrintToolHelp toolName toolCommands], Value tt)
  /\ dispatch w table (toolName :: "help" :: rest) = dispatch w table [toolName].
Proof.
  intros Hr Ht.
  unfold reservedWord, reservedWords in Hr. simpl in Hr.
  repeat (apply orb_false_iff in Hr as [? Hr]).
  assert (E : forall l, dispatch w table (toolName :: l)
                = if (length (toolName :: l) =? 1)
                     || ((1 <? length (toolName :: l)) && argIs 1 "help" (toolName :: l))
                  then ([PrintToolHelp toolName toolCommands], Value tt)
                  else dispatch w table (toolName :: l)).
  { intros l. destruct ((length (toolName :: l) =? 1)
                     || ((1 <? length (toolName :: l)) && argIs 1 "help" (toolName :: l))) eqn:E;
      [|reflexivity].
    unfold dispatch. rewrite (size_of_inhabited _ _ _ Ht).
    unfold when at 1. rewrite bind_ret_l.
    replace ((length (toolName :: l) =? 0) || argIs 0 "help" (toolName :: l)
             || argIs 0 "--help" (toolName :: l)) with false
      by (unfold argIs; simpl; symmetry; apply orb_false_iff; split; assumption).
    replace (argIs 0 "--version" (toolName :: l) || argIs 0 "-v" (toolName :: l)) with false
      by (unfold argIs; simpl; symmetry; apply orb_false_iff; split; assumption).
    change (nth 0 (toolName :: l) EmptyString) with toolName. cbv zeta.
    rewrite (getProperty_own _ _ _ Ht), E. reflexivity. }
  split.
  - rewrite (E []). reflexivity.
  - rewrite (E ("help" :: rest)), (E []). reflexivity.
Qed.

(** C8, at the failing input: the Node entry point does not know [-h]; it
    takes the token for a tool name and answers with the unknown-tool error
    and exit code 1, whereas [parseCommandArgs] of the shared utilities
    answers [-h] with the general-help result. *)
Theorem dash_h_is_unknown_tool (w : World) (table : AllCommands)
    (rest : list string) (commands : SharedUtils.AllCommands) :
  outcome (loadCommands w) = Value table ->
  (size table =? 0) = false ->
  table !! "-h" = None ->
  main w ("-h" :: rest)
  = (trace (loadCommands w) ++ trace (loadNaturalLanguageCommands w)
       ++ [LoggerError ("Unknown tool or command: " +:+ String.concat " " ("-h" :: rest));
           ConsoleError ("Error: Unknown tool or command: "
                         +:+ String.concat " " ("-h" :: rest));
           PrintGeneralHelp table],
     Exited 1)
  /\ SharedUtils.parseCommandArgs (builtinProperty w) ("-h" :: rest) commands
     = SharedUtils.parseCommandArgs (builtinProperty w) ["help"] commands
  /\ SharedUtils.ci_showHelp
       <$> SharedUtils.parseCommandArgs (builtinProperty w) ("-h" :: rest) commands
     = Some (Some true)
  /\ SharedUtils.ci_error
       <$> SharedUtils.parseCommandArgs (builtinProperty w) ("-h" :: rest) commands
     = Some None.
Proof.
  intros Hl Hs Hn. split; [|repeat split].
  rewrite (main_loaded w ("-h" :: rest) table eq_refl eq_refl Hl).
  unfold dispatch. rewrite Hs. unfold when at 1. rewrite bind_ret_l.
  change ((length ("-h" :: rest) =? 0) || argIs 0 "help" ("-h" :: rest)
          || argIs 0 "--help" ("-h" :: rest)) with false.
  change (argIs 0 "--version" ("-h" :: rest) || argIs 0 "-v" ("-h" :: rest)) with false.
  change (nth 0 ("-h" :: rest) EmptyString) with "-h". cbv zeta.
  rewrite (getProperty_undefined _ _ Hn eq_refl). reflexivity.
Qed.

Lemma dash_h_is_unknown_tool_witness :
  main (Sample.world Sample.commands) ["-h"]
  = ([LoggerDebug "Found shared directory at /opt/vibe/shared";
      LoggerDebug "Found shared directory at /opt/vibe/shared";
      LoggerError "Unknown tool or command: -h";
      ConsoleError "Error: Unknown tool or command: -h";
      PrintGeneralHelp Sample.commands], Exited 1).
Proof.
  exact (proj1 (dash_h_is_unknown_tool (Sample.world Sample.commands)
                  Sample.commands [] ∅ eq_refl eq_refl eq_refl)).
Defined.

(** The shared resolver answers the empty token list with an error result
    that asks for the help, not with the plain general-help result. *)
Lemma parse_empty_is_error (w : World) (commands : SharedUtils.AllCommands) :
  SharedUtils.ci_error <$> SharedUtils.parseCommandArgs (builtinProperty w) [] commands
  = Some (Some "No command specified")
  /\ SharedUtils.parseCommandArgs (builtinProperty w) [] commands
     <> SharedUtils.parseCommandArgs (builtinProperty w) ["help"] commands.
Proof. split; [reflexivity|]. vm_compute. discriminate. Qed.

End Resolver.

(** ** The formatter on hostile arguments *)

Section HostileArguments.
Import JsString Template NodeMain.

(** The examples of the test suite, on both formatters. *)
Example formatter_examples :
  formatCommand "git {0} {1}" ["checkout"; "main"] = "git checkout main"
  /\ formatCommand "git checkout {0} {1}" ["main"] = "git checkout main {1}"
  /\ formatCommand "git status" [] = "git status"
  /\ SharedUtils.formatCommand "git {0} {1}" ["checkout"; "main"] = "git checkout main"
  /\ SharedUtils.formatCommand "git checkout {0} {1}" ["main"] = "git checkout main {1}"
  /\ SharedUtils.formatCommand "git status" [] = "git status".
Proof. repeat split; vm_compute; reflexivity. Qed.

(** C1, at the failing input: the formatter inserts an argument as it is,
    without quoting or escaping; the argument [; rm -rf /] gives the
    command line [git checkout ; rm -rf /], and that line, in which the
    semicolon is unquoted, is what the executor hands to the shell. *)
Theorem shell_receives_unquoted_argument :
  (forall arg, plainArgument arg ->
     formatCommand "git checkout {0}" [arg] = "git checkout " +:+ arg)
  /\ formatCommand "git checkout {0}" ["; rm -rf /"] = "git checkout ; rm -rf /"
  /\ main (Sample.world Sample.commands) ["git"; "checkout"; "; rm -rf /"]
     = ([LoggerDebug "Found shared directory at /opt/vibe/shared";
         LoggerDebug "Found shared directory at /opt/vibe/shared";
         ExecSync "git checkout ; rm -rf /"], Value tt).
Proof.
  split; [|split; vm_compute; reflexivity].
  intros arg Harg.
  rewrite formatCommand_positional by (constructor; [exact Harg|constructor]).
  vm_compute Spec.format.
  rewrite app_empty_r. reflexivity.
Qed.

(** C2, at failing inputs: an argument [$&] is not what replaces the
    placeholder, and the second placeholder of [cp {0} {1}] is not the text
    that the second argument replaces when the first argument reads [{1}];
    the formatter of the specification gives [echo $&] and [cp {1} b]. *)
Theorem formatCommand_not_positional :
  formatCommand "echo {0}" ["$&"] = "echo {0}"
  /\ Spec.format "echo {0}" ["$&"] = "echo $&"
  /\ formatCommand "echo {0}" ["$$"] = "echo $"
  /\ Spec.format "echo {0}" ["$$"] = "echo $$"
  /\ formatCommand "cp {0} {1}" ["{1}"; "b"] = "cp b {1}"
  /\ Spec.format "cp {0} {1}" ["{1}"; "b"] = "cp {1} b".
Proof. repeat split; vm_compute; reflexivity. Qed.

(** C3, at the failing input: the value [{1}] inserted for the first
    placeholder is matched again when the second placeholder is resolved,
    in both formatters. *)
Theorem inserted_value_is_rescanned :
  formatCommand "{0} {1}" ["{1}"; "z"] = "z {1}"
  /\ SharedUtils.formatCommand "{0} {1}" ["{1}"; "z"] = "z {1}"
  /\ Spec.format "{0} {1}" ["{1}"; "z"] = "{1} z".
Proof. repeat split; vm_compute; reflexivity. Qed.

End HostileArguments.

(** ** The rows of the top-level flow *)

Section TopLevelFlow.
Import JsString JsObject NodeMain.

Lemma installerArgs_false (cliArgs : list string) :
  installerArgs cliArgs = false ->
  argIs 0 "install-alias" cliArgs = false /\ argIs 0 "uninstall" cliArgs = false.
Proof. unfold installerArgs. intros H. apply orb_false_iff in H. exact H. Qed.

Lemma main_dispatch (w : World) (cliArgs : list string) (table : AllCommands) :
  installerArgs cliArgs = false ->
  outcome (loadCommands w) = Value table ->
  main w cliArgs
  = (trace (loadCommands w) ++ trace (loadNaturalLanguageCommands w)
       ++ trace (dispatch w table cliArgs),
     outcome (dispatch w table cliArgs)).
Proof.
  intros Hi Hl. destruct (installerArgs_false _ Hi) as [H1 H2].
  apply main_loaded; assumption.
Qed.

Lemma orEmpty_Some (s : string) : orEmpty (Some s) = s.
Proof. destruct s; reflexivity. Qed.

(** What [executeShellCommand] does, by the fate of the child process. *)
Lemma executeShellCommand_run (w : World) (cmd : string) :
  executeShellCommand w cmd
  = (ExecSync cmd :: written StderrWrite (capturedStderr (spawnShell w cmd)),
     Value (match spawnShell w cmd with
            | ChildExit 0 out _ =>
                {| type := "shell"; success := Some true; stdout := Some out;
                   stderr := None; error := None |}
            | o =>
                {| type := "shell"; success := Some false;
                   error := Some (failureMessage cmd o);
                   stdout := Some (capturedStdout o);
                   stderr := Some (capturedStderr o) |}
            end)).
Proof.
  unfold executeShellCommand, execSync, written.
  destruct (spawnShell w cmd) as [status out err|sig out err|exited out err|reason];
    cbn [capturedStderr capturedStdout failureMessage].
  - destruct (truthy (Some err)), status as [|p|p]; cbn; rewrite ?orEmpty_Some;
      reflexivity.
  - destruct (truthy (Some err)); cbn; rewrite ?orEmpty_Some; reflexivity.
  - destruct (truthy (Some err)); cbn; rewrite ?orEmpty_Some; reflexivity.
  - reflexivity.
Qed.

Lemma getProperty_inherited {V : Type} (m : gmap string V) (k : string) :
  getProperty m k = Inherited -> m !! k = None /\ isPrototypeKey k = true.
Proof.
  unfold getProperty. destruct (m !! k); [discriminate|].
  destruct (isPrototypeKey k); [auto|discriminate].
Qed.

(** Every run of [dispatch] ends normally, by [process.exit(1)], or with
    the exception of a built-in getter, and hands at most one command line
    to the shell. *)
Lemma dispatch_discipline (w : World) (table : AllCommands) (cliArgs : list string) :
  (outcome (dispatch w table cliArgs) = Value tt
   \/ outcome (dispatch w table cliArgs) = Exited 1
   \/ exists e toolName commandName,
        cliArgs !! 0 = Some toolName /\ cliArgs !! 1 = Some commandName
        /\ table !! toolName = None /\ isPrototypeKey toolName = true
        /\ builtinProperty w toolName commandName = LookupThrows e
        /\ outcome (dispatch w table cliArgs) = Thrown e)
  /\ length (executedCommands (trace (dispatch w table cliArgs))) <= 1.
Proof.
  unfold dispatch, builtinCommand.
  destruct (size table =? 0); [simpl; auto|].
  unfold when at 1. rewrite bind_ret_l.
  destruct ((length cliArgs =? 0) || argIs 0 "help" cliArgs || argIs 0 "--help" cliArgs)
    eqn:E0; [simpl; auto|].
  destruct (argIs 0 "--version" cliArgs || argIs 0 "-v" cliArgs); [simpl; auto|].
  cbv zeta.
  destruct (getProperty table (nth 0 cliArgs EmptyString)) as [toolCommands| |] eqn:Ep;
    [| |simpl; auto].
  - destruct ((length cliArgs =? 1) || ((1 <? length cliArgs) && argIs 1 "help" cliArgs));
      [simpl; auto|].
    destruct (getProperty toolCommands (nth 1 cliArgs EmptyString)) as [cfg| |];
      [|destruct ((2 <? length cliArgs) && argIs 2 "help" cliArgs); simpl; auto
       |simpl; auto].
    destruct ((2 <? length cliArgs) && argIs 2 "help" cliArgs); [simpl; auto|].
    destruct (truthy (handler cfg)); [simpl; auto|].
    destruct (truthy (command cfg)); [|simpl; auto].
    rewrite executeShellCommand_run. unfold written.
    destruct (spawnShell w _) as [status out err|sig out err|exited out err|reason];
      [destruct status; destruct out, err|destruct out, err|destruct out, err|];
      simpl; auto.
  - destruct (getProperty_inherited _ _ Ep) as [Hn Hk].
    destruct cliArgs as [|toolName [|commandName rest]];
      [discriminate E0|simpl; auto|].
    destruct ((length (toolName :: commandName :: rest) =? 1)
              || ((1 <? length (toolName :: commandName :: rest))
                  && argIs 1 "help" (toolName :: commandName :: rest)));
      [simpl; auto|].
    cbn [nth] in *.
    destruct (builtinProperty w toolName commandName) as [e| |] eqn:Eb;
      [|simpl; auto
       |destruct ((2 <? length (toolName :: commandName :: rest))
                  && argIs 2 "help" (toolName :: commandName :: rest)); simpl; auto].
    split; [|simpl; lia]. right. right. exists e, toolName, commandName.
    repeat split; assumption || reflexivity.
Qed.



(** Behind the installer subcommands, the exceptions of the loaders and of
    [execSync] are all caught: a run of [main] ends with an uncaught
    exception only when its first token is a property name of
    [Object.prototype] that the table does not define and the runtime
    throws at the lookup of the second token in that built-in; and when a
    run ends by [process.exit], the exit code is 1. *)
Theorem main_exit_discipline (w : World) (cliArgs : list string) :
  installerArgs cliArgs = false ->
  (forall e, outcome (main w cliArgs) = Thrown e ->
     exists table toolName commandName,
       outcome (loadCommands w) = Value table
       /\ cliArgs !! 0 = Some toolName /\ cliArgs !! 1 = Some commandName
       /\ table !! toolName = None /\ isPrototypeKey toolName = true
       /\ builtinProperty w toolName commandName = LookupThrows e)
  /\ (forall code, outcome (main w cliArgs) = Exited code -> code = 1%Z).
Proof.
  intros Hi. destruct (loadCommands_returns w) as (table & Hl & _).
  rewrite (main_dispatch _ _ _ Hi Hl).
  change (outcome (trace (loadCommands w) ++ trace (loadNaturalLanguageCommands w)
                     ++ trace (dispatch w table cliArgs),
                   outcome (dispatch w table cliArgs)))
    with (outcome (dispatch w table cliArgs)).
  destruct (dispatch_discipline w table cliArgs)
    as [[H | [H | (e & toolName & commandName & H0 & H1 & Hn & Hk & Hb & H)]] _];
    rewrite H; split.
  all: try (intros e' He; discriminate He).
  all: try (intros code Hc; discriminate Hc).
  - intros code Hc. inversion Hc. reflexivity.
  - intros e' He. inversion He; subst e'.
    exists table, toolName, commandName. repeat split; assumption.
Qed.

Lemma main_exit_discipline_witness :
  outcome (main (Sample.world Sample.commands) ["constructor"; "caller"])
  = Thrown Sample.restricted
  /\ outcome (main (Sample.world Sample.commands) ["git"; "stash"]) = Exited 1
  /\ (forall code,
        outcome (main (Sample.world Sample.commands) ["git"; "stash"]) = Exited code ->
        code = 1%Z).
Proof.
  split; [reflexivity|]. split; [reflexivity|].
  exact (proj2 (main_exit_discipline (Sample.world Sample.commands)
                  ["git"; "stash"] eq_refl)).
Defined.



Lemma reserved_not_installer (toolName : string) (l : list string) :
  reservedWord toolName = false -> installerArgs (toolName :: l) = false.
Proof.
  unfold reservedWord, reservedWords, installerArgs, argIs. simpl. intros Hr.
  repeat (apply orb_false_iff in Hr as [? Hr]).
  apply orb_false_iff. split; assumption.
Qed.

(** A version query prints the version and ends normally, whatever follows
    the first token, once a non-empty table is loaded. *)
Theorem version_query (w : World) (table : AllCommands) (flag : string)
    (rest : list string) :
  outcome (loadCommands w) = Value table ->
  (size table =? 0) = false ->
  flag = "--version" \/ flag = "-v" ->
  main w (flag :: rest)
  = (trace (loadCommands w) ++ trace (loadNaturalLanguageCommands w)
       ++ [ConsoleLog "0.1.0"], Value tt).
Proof.
  intros Hl Hs Hf.
  assert (Hi : installerArgs (flag :: rest) = false)
    by (destruct Hf as [-> | ->]; reflexivity).
  rewrite (main_dispatch _ _ _ Hi Hl).
  unfold dispatch. rewrite Hs. unfold when at 1. rewrite bind_ret_l.
  destruct Hf as [-> | ->]; reflexivity.
Qed.

Lemma version_query_witness :
  main (Sample.world Sample.commands) ["-v"; "git"; "status"]
  = ([LoggerDebug "Found shared directory at /opt/vibe/shared";
      LoggerDebug "Found shared directory at /opt/vibe/shared";
      ConsoleLog "0.1.0"], Value tt).
Proof.
  exact (version_query (Sample.world Sample.commands) Sample.commands "-v"
           ["git"; "status"] eq_refl eq_refl (or_intror eq_refl)).
Defined.

(** A first token that is no tool of the loaded table (and no reserved
    word, nor a property name of [Object.prototype]) is answered with the
    error lines, the general help and exit code 1; nothing is executed. *)
Theorem unknown_tool (w : World) (table : AllCommands) (toolName : string)
    (rest : list string) :
  outcome (loadCommands w) = Value table ->
  (size table =? 0) = false ->
  reservedWord toolName = false ->
  table !! toolName = None ->
  isPrototypeKey toolName = false ->
  main w (toolName :: rest)
  = (trace (loadCommands w) ++ trace (loadNaturalLanguageCommands w)
       ++ [LoggerError ("Unknown tool or command: "
                        +:+ String.concat " " (toolName :: rest));
           ConsoleError ("Error: Unknown tool or command: "
                         +:+ String.concat " " (toolName :: rest));
           PrintGeneralHelp table],
     Exited 1).
Proof.
  intros Hl Hs Hr Hn Hp.
  rewrite (main_dispatch _ _ _ (reserved_not_installer _ rest Hr) Hl).
  unfold reservedWord, reservedWords in Hr. simpl in Hr.
  repeat (apply orb_false_iff in Hr as [? Hr]).
  unfold dispatch. rewrite Hs. unfold when at 1. rewrite bind_ret_l.
  replace ((length (toolName :: rest) =? 0) || argIs 0 "help" (toolName :: rest)
           || argIs 0 "--help" (toolName :: rest)) with false
    by (unfold argIs; simpl; symmetry; apply orb_false_iff; split; assumption).
  replace (argIs 0 "--version" (toolName :: rest) || argIs 0 "-v" (toolName :: rest))
    with false
    by (unfold argIs; simpl; symmetry; apply orb_false_iff; split; assumption).
  change (nth 0 (toolName :: rest) EmptyString) with toolName. cbv zeta.
  rewrite (getProperty_undefined _ _ Hn Hp). reflexivity.
Qed.

Lemma unknown_tool_witness :
  main (Sample.world Sample.commands) ["check"; "status"]
  = ([LoggerDebug "Found shared directory at /opt/vibe/shared";
      LoggerDebug "Found shared directory at /opt/vibe/shared";
      LoggerError "Unknown tool or command: check status";
      ConsoleError "Error: Unknown tool or command: check status";
      PrintGeneralHelp Sample.commands], Exited 1).
Proof.
  exact (unknown_tool (Sample.world Sample.commands) Sample.commands "check"
           ["status"] eq_refl eq_refl eq_refl eq_refl eq_refl).
Defined.

(** [help] as third token prints the help of the command and ends
    normally, whatever follows and whatever the descriptor holds: nothing
    is executed, and a descriptor with neither template nor handler is not
    reported. *)
Theorem command_help (w : World) (table : AllCommands) (toolName commandName : string)
    (toolCommands : ToolCommands) (cfg : CommandConfig) (rest : list string) :
  outcome (loadCommands w) = Value table ->
  reservedWord toolName = false ->
  table !! toolName = Some toolCommands ->
  commandName <> "help" ->
  toolCommands !! commandName = Some cfg ->
  main w (toolName :: commandName :: "help" :: rest)
  = (trace (loadCommands w) ++ trace (loadNaturalLanguageCommands w)
       ++ [PrintCommandHelp toolName commandName cfg], Value tt).
Proof.
  intros Hl Hr Ht Hn Hc.
  rewrite (main_known_tool _ _ _ _ _ _ Hl Hr Ht Hn).
  rewrite (dispatch_known_tool _ _ _ _ _ _ Hr Ht Hn).
  rewrite (getProperty_own _ _ _ Hc). reflexivity.
Qed.

Lemma command_help_witness :
  main (Sample.world Sample.commands) ["git"; "stash"; "help"; "me"]
  = ([LoggerDebug "Found shared directory at /opt/vibe/shared";
      LoggerDebug "Found shared directory at /opt/vibe/shared";
      PrintCommandHelp "git" "stash" Sample.emptyDescriptor], Value tt).
Proof.
  refine (command_help (Sample.world Sample.commands) Sample.commands "git" "stash"
            Sample.gitCommands Sample.emptyDescriptor ["me"] eq_refl eq_refl
            eq_refl _ eq_refl).
  discriminate.
Defined.

(** A descriptor with a handler is never executed through the shell, also
    when it has a template as well: the run prints the handler line and
    ends normally. *)
Theorem handler_takes_precedence (w : World) (table : AllCommands)
    (toolName commandName : string) (toolCommands : ToolCommands)
    (cfg : CommandConfig) (rest : list string) :
  outcome (loadCommands w) = Value table ->
  reservedWord toolName = false ->
  table !! toolName = Some toolCommands ->
  commandName <> "help" ->
  toolCommands !! commandName = Some cfg ->
  argIs 0 "help" rest = false ->
  truthy (handler cfg) = true ->
  main w (toolName :: commandName :: rest)
  = (trace (loadCommands w) ++ trace (loadNaturalLanguageCommands w)
       ++ [ConsoleLog ("Handler execution: " +:+ interpolate (handler cfg))],
     Value tt).
Proof.
  intros Hl Hr Ht Hn Hc Hrest Hh.
  rewrite (main_known_tool _ _ _ _ _ _ Hl Hr Ht Hn).
  rewrite (dispatch_known_tool _ _ _ _ _ _ Hr Ht Hn).
  rewrite (getProperty_own _ _ _ Hc), Hrest, Hh. reflexivity.
Qed.

Lemma handler_takes_precedence_witness :
  main (Sample.world Sample.pythonCommands) ["python"; "activate"; ".venv"]
  = ([LoggerDebug "Found shared directory at /opt/vibe/shared";
      LoggerDebug "Found shared directory at /opt/vibe/shared";
      ConsoleLog "Handler execution: python.activate_venv"], Value tt).
Proof.
  refine (handler_takes_precedence (Sample.world Sample.pythonCommands)
            Sample.pythonCommands "python" "activate"
            {[ "activate" := Sample.activate ]} Sample.activate [".venv"]
            eq_refl eq_refl eq_refl _ eq_refl eq_refl eq_refl).
  discriminate.
Defined.

(** [dispatch] at the execution of a descriptor with a template and no
    handler. *)
Lemma dispatch_template (w : World) (table : AllCommands)
    (toolName commandName template : string) (toolCommands : ToolCommands)
    (cfg : CommandConfig) (rest : list string) :
  reservedWord toolName = false ->
  table !! toolName = Some toolCommands ->
  commandName <> "help" ->
  toolCommands !! commandName = Some cfg ->
  argIs 0 "help" rest = false ->
  truthy (handler cfg) = false ->
  command cfg = Some template ->
  template <> EmptyString ->
  dispatch w table (toolName :: commandName :: rest)
  = do result <- executeShellCommand w (formatCommand template rest) in
    if bool_decide (success result = Some true) then
      when (truthy (stdout result))
        (emit (StdoutWrite (interpolate (stdout result))))
    else
      emit (ConsoleError ("Error executing command: " +:+ interpolate (error result))) >>
      when (truthy (stderr result))
        (emit (StderrWrite (interpolate (stderr result)))) >>
      processExit 1.
Proof.
  intros Hr Ht Hn Hc Hrest Hh Hcmd Hne.
  rewrite (dispatch_known_tool _ _ _ _ _ _ Hr Ht Hn).
  rewrite (getProperty_own _ _ _ Hc), Hrest, Hh, Hcmd.
  destruct template; [contradiction|]. reflexivity.
Qed.

(** When the child process exits with status 0 and its output stays within
    the buffer, the run hands the formatted template to the shell, passes on
    what the child wrote to its standard error, writes the captured
    standard output to its own standard output, and ends normally. *)
Theorem execution_success (w : World) (table : AllCommands)
    (toolName commandName template : string) (toolCommands : ToolCommands)
    (cfg : CommandConfig) (rest : list string) (out err : string) :
  outcome (loadCommands w) = Value table ->
  reservedWord toolName = false ->
  table !! toolName = Some toolCommands ->
  commandName <> "help" ->
  toolCommands !! commandName = Some cfg ->
  argIs 0 "help" rest = false ->
  truthy (handler cfg) = false ->
  command cfg = Some template ->
  template <> EmptyString ->
  spawnShell w (formatCommand template rest) = ChildExit 0 out err ->
  main w (toolName :: commandName :: rest)
  = (trace (loadCommands w) ++ trace (loadNaturalLanguageCommands w)
       ++ ExecSync (formatCommand template rest)
          :: written StderrWrite err ++ written StdoutWrite out,
     Value tt).
Proof.
  intros Hl Hr Ht Hn Hc Hrest Hh Hcmd Hne Hspawn.
  rewrite (main_known_tool _ _ _ _ _ _ Hl Hr Ht Hn).
  rewrite (dispatch_template _ _ _ _ _ _ _ _ Hr Ht Hn Hc Hrest Hh Hcmd Hne).
  rewrite executeShellCommand_run, Hspawn. unfold written.
  destruct out, err; reflexivity.
Qed.

Lemma execution_success_witness :
  main (Sample.worldOf Sample.onlyCommandFile
          (fun _ => YamlTable Sample.commands) Sample.cleanRepository)
    ["git"; "checkout"; "main"; "extra"]
  = ([LoggerDebug "Found shared directory at /opt/vibe/shared";
      LoggerDebug "Found shared directory at /opt/vibe/shared";
      LoggerError "Failed to load natural language commands: ENOENT: no such file or directory";
      ExecSync "git checkout main";
      StdoutWrite "nothing to commit"], Value tt).
Proof.
  exact (execution_success
           (Sample.worldOf Sample.onlyCommandFile
              (fun _ => YamlTable Sample.commands) Sample.cleanRepository)
           Sample.commands "git" "checkout" "git checkout {0}"
           Sample.gitCommands
           (Sample.descriptor "git checkout {0}" "Switch branches" (Some ["co"]))
           ["main"; "extra"] "nothing to commit" EmptyString
           eq_refl eq_refl eq_refl ltac:(discriminate) eq_refl eq_refl eq_refl
           eq_refl ltac:(discriminate) eq_refl).
Defined.

(** When the child process does not exit with status 0 within the buffer
    (another status, a signal, an outgrown buffer, or a shell that could not
    be started), the run has handed the formatted template to the shell,
    prints [Error executing command:] with the message of the error of
    [execSync], writes the captured standard error (which [execSync] had
    passed on already), drops the captured standard output, and exits with
    code 1. *)
Theorem execution_failure (w : World) (table : AllCommands)
    (toolName commandName template : string) (toolCommands : ToolCommands)
    (cfg : CommandConfig) (rest : list string) :
  outcome (loadCommands w) = Value table ->
  reservedWord toolName = false ->
  table !! toolName = Some toolCommands ->
  commandName <> "help" ->
  toolCommands !! commandName = Some cfg ->
  argIs 0 "help" rest = false ->
  truthy (handler cfg) = false ->
  command cfg = Some template ->
  template <> EmptyString ->
  (forall out err, spawnShell w (formatCommand template rest) <> ChildExit 0 out err) ->
  main w (toolName :: commandName :: rest)
  = (trace (loadCommands w) ++ trace (loadNaturalLanguageCommands w)
       ++ ExecSync (formatCommand template rest)
          :: written StderrWrite
               (capturedStderr (spawnShell w (formatCommand template rest)))
          ++ ConsoleError
               ("Error executing command: "
                +:+ failureMessage (formatCommand template rest)
                      (spawnShell w (formatCommand template rest)))
          :: written StderrWrite
               (capturedStderr (spawnShell w (formatCommand template rest))),
     Exited 1).
Proof.
  intros Hl Hr Ht Hn Hc Hrest Hh Hcmd Hne Hspawn.
  rewrite (main_known_tool _ _ _ _ _ _ Hl Hr Ht Hn).
  rewrite (dispatch_template _ _ _ _ _ _ _ _ Hr Ht Hn Hc Hrest Hh Hcmd Hne).
  rewrite executeShellCommand_run. unfold written.
  destruct (spawnShell w (formatCommand template rest))
    as [status out err|sig out err|exited out err|reason] eqn:E;
    cbn [capturedStderr capturedStdout failureMessage].
  - destruct status as [|p|p]; [destruct (Hspawn out err eq_refl)| |];
      destruct err; reflexivity.
  - destruct err; reflexivity.
  - destruct err; reflexivity.
  - reflexivity.
Qed.

Lemma execution_failure_witness :
  main (Sample.worldOf Sample.onlyCommandFile
          (fun _ => YamlTable Sample.commands) Sample.outsideRepository)
    ["git"; "status"]
  = ([LoggerDebug "Found shared directory at /opt/vibe/shared";
      LoggerDebug "Found shared directory at /opt/vibe/shared";
      LoggerError "Failed to load natural language commands: ENOENT: no such file or directory";
      ExecSync "git status";
      StderrWrite "fatal: not a git repository";
      ConsoleError ("Error executing command: Command failed: git status"
                    +:+ String "010" "fatal: not a git repository");
      StderrWrite "fatal: not a git repository"], Exited 1).
Proof.
  exact (execution_failure
           (Sample.worldOf Sample.onlyCommandFile
              (fun _ => YamlTable Sample.commands) Sample.outsideRepository)
           Sample.commands "git" "status" "git status"
           Sample.gitCommands
           (Sample.descriptor "git status" "Show the working tree status" None)
           [] eq_refl eq_refl eq_refl ltac:(discriminate) eq_refl eq_refl eq_refl
           eq_refl ltac:(discriminate) ltac:(discriminate)).
Defined.

End TopLevelFlow.

(** ** The loaders *)

Section Loaders.
Import JsObject NodeMain.

(** A command file that parses to a falsy document (an empty file) gives
    the empty table without any loader error; the run then ends with the
    two lines of the top-level check and exit code 1. *)
Theorem empty_document_loads_silently (w : World) (contents : string)
    (cliArgs : list string) :
  readFileSync w (sharedDirOf w) "commands.yaml" = ReadOk contents ->
  yamlLoadCommands w contents = YamlFalsy ->
  installerArgs cliArgs = false ->
  loadCommands w = (trace (getSharedDir w), Value ∅)
  /\ main w cliArgs
     = (trace (getSharedDir w) ++ trace (loadNaturalLanguageCommands w)
          ++ [LoggerError "Failed to load command definitions";
              ConsoleError "Error: Failed to load command definitions"],
        Exited 1).
Proof.
  intros Hread Hyaml Hi.
  assert (Hload : loadCommands w = (trace (getSharedDir w), Value ∅)).
  { unfold loadCommands.
    rewrite (bind_value _ _ _ (getSharedDir_sharedDirOf w)). unfold readFile.
    rewrite Hread. simpl. rewrite Hyaml. simpl. rewrite app_nil_r. reflexivity. }
  split; [exact Hload|].
  assert (Hout : outcome (loadCommands w) = Value ∅) by (rewrite Hload; reflexivity).
  rewrite (main_dispatch _ _ _ Hi Hout), dispatch_empty, Hload. reflexivity.
Qed.

Lemma empty_document_loads_silently_witness :
  main (Sample.worldOf Sample.onlyCommandFile (fun _ => YamlFalsy)
          Sample.cleanRepository) ["--version"]
  = ([LoggerDebug "Found shared directory at /opt/vibe/shared";
      LoggerDebug "Found shared directory at /opt/vibe/shared";
      LoggerError "Failed to load natural language commands: ENOENT: no such file or directory";
      LoggerError "Failed to load command definitions";
      ConsoleError "Error: Failed to load command definitions"], Exited 1).
Proof.
  exact (proj2 (empty_document_loads_silently
                  (Sample.worldOf Sample.onlyCommandFile (fun _ => YamlFalsy)
                     Sample.cleanRepository)
                  "git: ..." ["--version"] eq_refl eq_refl eq_refl)).
Defined.

(** A phrase file that is missing or does not parse makes
    [loadNaturalLanguageCommands] log an error and return the empty table,
    and the run goes on as with any phrase table: the failure is not
    fatal. *)
Theorem phrase_file_failure_is_not_fatal (w : World) (e : JsError)
    (table : AllCommands) (cliArgs : list string) :
  phraseFileFails w e ->
  outcome (loadCommands w) = Value table ->
  installerArgs cliArgs = false ->
  loadNaturalLanguageCommands w
  = (trace (getSharedDir w)
       ++ [LoggerError ("Failed to load natural language commands: " +:+ message e)],
     Value ∅)
  /\ main w cliArgs
     = (trace (loadCommands w) ++ trace (loadNaturalLanguageCommands w)
          ++ trace (dispatch w table cliArgs),
        outcome (dispatch w table cliArgs)).
Proof.
  intros H Hl Hi. split; [|apply main_dispatch; assumption].
  unfold loadNaturalLanguageCommands.
  rewrite (bind_value _ _ _ (getSharedDir_sharedDirOf w)). unfold readFile.
  destruct H as [-> | (contents & -> & Hy)]; simpl.
  - reflexivity.
  - rewrite Hy. reflexivity.
Qed.

Lemma phrase_file_failure_is_not_fatal_witness :
  main (Sample.worldOf Sample.onlyCommandFile (fun _ => YamlTable Sample.commands)
          Sample.cleanRepository) ["git"]
  = ([LoggerDebug "Found shared directory at /opt/vibe/shared";
      LoggerDebug "Found shared directory at /opt/vibe/shared";
      LoggerError "Failed to load natural language commands: ENOENT: no such file or directory";
      PrintToolHelp "git" Sample.gitCommands], Value tt).
Proof.
  exact (proj2 (phrase_file_failure_is_not_fatal
                  (Sample.worldOf Sample.onlyCommandFile
                     (fun _ => YamlTable Sample.commands) Sample.cleanRepository)
                  {| message := "ENOENT: no such file or directory";
                     errStdout := None; errStderr := None |}
                  Sample.commands ["git"] (or_introl eq_refl) eq_refl eq_refl)).
Defined.

(** [getSharedDir] settles on the first of the three candidate directories
    that exists, and otherwise on the mock directory under test and on the
    embedded directory else; it logs an error exactly when it falls back on
    the embedded directory, and it creates a directory exactly when it
    settles on a mock directory that does not exist. *)
Theorem shared_directory_discovery (w : World) :
  outcome (getSharedDir w)
  = Value (match List.find (existsSync w) [LocalShared; ProjectShared; PackageShared] with
           | Some d => d
           | None => if isTestEnv w then MockDir else EmbeddedDir
           end)
  /\ ((exists msg, In (LoggerError msg) (trace (getSharedDir w)))
      <-> outcome (getSharedDir w) = Value EmbeddedDir)
  /\ (forall d, In (MkdirSync d) (trace (getSharedDir w))
      <-> d = MockDir /\ outcome (getSharedDir w) = Value MockDir
          /\ existsSync w MockDir = false).
Proof.
  unfold getSharedDir. cbn [List.find].
  destruct (existsSync w LocalShared) eqn:E1;
    [|destruct (existsSync w ProjectShared) eqn:E2;
      [|destruct (existsSync w PackageShared) eqn:E3;
        [|destruct (isTestEnv w) eqn:E4;
          [destruct (existsSync w MockDir) eqn:E5|]]]];
    simpl; (split; [reflexivity|]); split; try (intros d); split;
    try (intros [msg H]); try (intros H);
    repeat match goal with
           | H : _ \/ _ |- _ => destruct H
           | H : False |- _ => destruct H
           | H : _ /\ _ |- _ => destruct H
           end;
    try discriminate; try congruence; eauto.
  - inversion H. auto.
  - subst d. left. reflexivity.
Qed.

End Loaders.

(** ** The shared resolver and its executor *)

Section SharedResolver.
Import JsString JsObject SharedUtils.

(** What the result of [parseCommandArgs] holds as [config] is the entry of
    the table under the first two tokens or, where the table has no such
    entry and the name is a property name of [Object.prototype], the
    built-in found there; the result names the two tokens, carries no
    error, and its arguments are the remaining tokens (or, for a help
    request on the command, none). *)
Theorem parse_descriptor_from_table {E : Type}
    (builtinProperty : string -> string -> BuiltinLookup E)
    (argv : list string) (commands : AllCommands)
    (r : CommandInfo) (found : Found CommandConfig) :
  parseCommandArgs builtinProperty argv commands = Some r ->
  ci_config r = Some found ->
  exists toolName commandName tail,
    argv = toolName :: commandName :: tail
    /\ ci_tool r = Some toolName
    /\ ci_command r = Some commandName
    /\ ci_error r = None
    /\ (ci_args r = Some tail /\ ci_commandHelp r = None
        \/ ci_args r = None /\ ci_commandHelp r = Some true
           /\ argIs 0 "help" tail = true)
    /\ match found with
       | Entry cfg =>
           exists toolCommands,
             commands !! toolName = Some toolCommands
             /\ toolCommands !! commandName = Some cfg
       | BuiltIn path =>
           (exists toolCommands,
              commands !! toolName = Some toolCommands
              /\ toolCommands !! commandName = None
              /\ isPrototypeKey commandName = true
              /\ path = [commandName])
           \/ (commands !! toolName = None
               /\ isPrototypeKey toolName = true
               /\ builtinProperty toolName commandName = LookupTruthy
               /\ path = [toolName; commandName])
       end.
Proof.
  unfold parseCommandArgs.
  destruct (length argv =? 0) eqn:E0; [intros H; inversion H; subst; discriminate|].
  destruct (argIs 0 "--version" argv || argIs 0 "-v" argv);
    [intros H; inversion H; subst; discriminate|].
  destruct (argIs 0 "help" argv || argIs 0 "--help" argv || argIs 0 "-h" argv);
    [intros H; inversion H; subst; discriminate|].
  cbv zeta.
  destruct ((length argv =? 1) || ((1 <? length argv) && argIs 1 "help" argv)) eqn:E1;
    [destruct (getProperty commands (nth 0 argv EmptyString));
     intros H; inversion H; subst; discriminate|].
  destruct argv as [|toolName [|commandName tail]];
    [discriminate E0|discriminate E1|].
  cbn [nth].
  assert (Hfound : forall c,
            ci_config (commandFound toolName commandName c
                         (toolName :: commandName :: tail)) = Some found ->
            c = found
            /\ ci_tool (commandFound toolName commandName c
                          (toolName :: commandName :: tail)) = Some toolName
            /\ ci_command (commandFound toolName commandName c
                             (toolName :: commandName :: tail)) = Some commandName
            /\ ci_error (commandFound toolName commandName c
                           (toolName :: commandName :: tail)) = None
            /\ (ci_args (commandFound toolName commandName c
                           (toolName :: commandName :: tail)) = Some tail
                /\ ci_commandHelp (commandFound toolName commandName c
                                     (toolName :: commandName :: tail)) = None
                \/ ci_args (commandFound toolName commandName c
                              (toolName :: commandName :: tail)) = None
                   /\ ci_commandHelp (commandFound toolName commandName c
                                        (toolName :: commandName :: tail)) = Some true
                   /\ argIs 0 "help" tail = true)).
  { intros c. unfold commandFound.
    destruct ((2 <? length (toolName :: commandName :: tail))
              && argIs 2 "help" (toolName :: commandName :: tail)) eqn:E2;
      cbn; intros Hc; inversion Hc; subst; repeat split; auto.
    right. repeat split. apply andb_true_iff in E2 as [_ E2]. exact E2. }
  unfold getProperty at 1.
  destruct (commands !! toolName) as [toolCommands|] eqn:Et.
  - unfold getProperty.
    destruct (toolCommands !! commandName) as [cfg|] eqn:Ec.
    + intros H Hc. inversion H; subst r.
      destruct (Hfound _ Hc) as (<- & H1 & H2 & H3 & H4).
      exists toolName, commandName, tail. repeat split; auto. eauto.
    + destruct (isPrototypeKey commandName) eqn:Ek;
        [|intros H; inversion H; subst; discriminate].
      intros H Hc. inversion H; subst r.
      destruct (Hfound _ Hc) as (<- & H1 & H2 & H3 & H4).
      exists toolName, commandName, tail. repeat split; auto.
      left. exists toolCommands. auto.
  - destruct (isPrototypeKey toolName) eqn:Ek;
      [|intros H; inversion H; subst; discriminate].
    destruct (builtinProperty toolName commandName) eqn:Eb;
      [discriminate|intros H; inversion H; subst; discriminate|].
    intros H Hc. inversion H; subst r.
    destruct (Hfound _ Hc) as (<- & H1 & H2 & H3 & H4).
    exists toolName, commandName, tail. repeat split; auto.
Qed.

Lemma parse_descriptor_from_table_witness :
  (exists toolCommands,
     Sample.sharedCommands !! "git" = Some toolCommands
     /\ toolCommands !! "checkout" = Some Sample.sharedCheckout)
  /\ ci_config <$> parseCommandArgs Sample.builtins ["git"; "constructor"]
                     Sample.sharedCommands
     = Some (Some (BuiltIn ["constructor"])).
Proof.
  split; [|reflexivity].
  destruct (parse_descriptor_from_table Sample.builtins ["git"; "checkout"; "main"]
              Sample.sharedCommands
              {| ci_tool := Some "git"; ci_command := Some "checkout";
                 ci_config := Some (Entry Sample.sharedCheckout);
                 ci_args := Some ["main"];
                 ci_type := None; ci_error := None; ci_showHelp := None;
                 ci_toolHelp := None; ci_commands := None; ci_commandHelp := None;
                 ci_success := None; ci_result := None |}
              (Entry Sample.sharedCheckout) eq_refl eq_refl)
    as (t & c & tail & Hargv & _ & _ & _ & _ & tc & H1 & H2).
  inversion Hargv; subst. exists tc. split; assumption.
Defined.

(** [parseCommandArgs] on a known tool, a known command and further tokens
    of which the first is not [help]. *)
Lemma parse_resolves {E : Type} (builtinProperty : string -> string -> BuiltinLookup E)
    (commands : AllCommands) (toolName commandName : string)
    (toolCommands : ToolCommands) (cfg : CommandConfig) (rest : list string) :
  specialToken toolName = false ->
  commands !! toolName = Some toolCommands ->
  commandName <> "help" ->
  toolCommands !! commandName = Some cfg ->
  parseCommandArgs builtinProperty (toolName :: commandName :: rest) commands
  = if argIs 0 "help" rest then
      Some {| ci_commandHelp := Some true; ci_tool := Some toolName;
              ci_command := Some commandName; ci_config := Some (Entry cfg);
              ci_type := None; ci_args := None; ci_error := None;
              ci_showHelp := None; ci_toolHelp := None; ci_commands := None;
              ci_success := None; ci_result := None |}
    else
      Some {| ci_tool := Some toolName; ci_command := Some commandName;
              ci_config := Some (Entry cfg); ci_args := Some rest;
              ci_type := None; ci_error := None; ci_showHelp := None;
              ci_toolHelp := None; ci_commands := None; ci_commandHelp := None;
              ci_success := None; ci_result := None |}.
Proof.
  intros Hs Ht Hn Hc.
  unfold specialToken, specialTokens in Hs. simpl in Hs.
  repeat (apply orb_false_iff in Hs as [? Hs]).
  set (l := toolName :: commandName :: rest).
  assert (E1 : argIs 0 "--version" l || argIs 0 "-v" l = false).
  { unfold argIs, l. simpl. apply orb_false_iff. split; assumption. }
  assert (E2 : argIs 0 "help" l || argIs 0 "--help" l || argIs 0 "-h" l = false).
  { unfold argIs, l. simpl. repeat (apply orb_false_iff; split); assumption. }
  assert (E3 : (length l =? 1) || ((1 <? length l) && argIs 1 "help" l) = false).
  { unfold argIs, l. simpl. apply String.eqb_neq. exact Hn. }
  assert (E4 : (2 <? length l) && argIs 2 "help" l = argIs 0 "help" rest).
  { unfold argIs, l. simpl. destruct rest; reflexivity. }
  unfold parseCommandArgs, commandFound. fold l.
  change (length l =? 0) with false. cbv iota.
  rewrite E1, E2.
  change (nth 0 l EmptyString) with toolName.
  change (nth 1 l EmptyString) with commandName.
  change (drop 2 l) with rest.
  cbv zeta. unfold getProperty. rewrite Ht, E3, Hc, E4.
  destruct (argIs 0 "help" rest); reflexivity.
Qed.

(** Parsing and then executing a known command with a template and no
    handler reports the shell command that the shared formatter makes of
    the template and of the tokens behind the command name. *)
Theorem parse_then_execute {E : Type}
    (builtinProperty : string -> string -> BuiltinLookup E)
    (commands : AllCommands) (toolName commandName template : string)
    (toolCommands : ToolCommands) (cfg : CommandConfig) (rest : list string) :
  specialToken toolName = false ->
  commands !! toolName = Some toolCommands ->
  commandName <> "help" ->
  toolCommands !! commandName = Some cfg ->
  argIs 0 "help" rest = false ->
  truthy (handler cfg) = false ->
  command cfg = Some template ->
  template <> EmptyString ->
  executeCommand
    <$> parseCommandArgs builtinProperty (toolName :: commandName :: rest) commands
  = Some {| ci_type := Some "shell"; ci_success := Some true;
            ci_result := Some ("Command executed: " +:+ formatCommand template rest);
            ci_tool := None; ci_command := None; ci_config := None; ci_args := None;
            ci_error := None; ci_showHelp := None; ci_toolHelp := None;
            ci_commands := None; ci_commandHelp := None |}.
Proof.
  intros Hs Ht Hn Hc Hrest Hh Hcmd Hne.
  rewrite (parse_resolves _ _ _ _ _ _ _ Hs Ht Hn Hc), Hrest.
  cbn [fmap option_fmap option_map]. unfold executeCommand. cbn [ci_config ci_args default].
  rewrite Hh, Hcmd. destruct template; [contradiction|]. reflexivity.
Qed.

Lemma parse_then_execute_witness :
  ci_result <$> (executeCommand
                   <$> parseCommandArgs Sample.builtins ["git"; "checkout"; "main"]
                         Sample.sharedCommands)
  = Some (Some "Command executed: git checkout main").
Proof.
  rewrite (parse_then_execute Sample.builtins Sample.sharedCommands "git" "checkout"
             "git checkout {0}" (SharedView.sharedTools Sample.gitCommands)
             Sample.sharedCheckout ["main"]
             eq_refl eq_refl ltac:(discriminate) eq_refl eq_refl eq_refl eq_refl
             ltac:(discriminate)).
  reflexivity.
Defined.

Lemma shared_format_without_arguments (template : string) :
  formatCommand template [] = template.
Proof.
  unfold formatCommand.
  destruct (includesChar LBRACE template); [apply formatEach_no_args|reflexivity].
Qed.

(** [executeCommand] does not look at the help flag: given the result of
    parsing a help request on a command with a template, it reports the
    template itself as executed, placeholders included. *)
Theorem execute_ignores_help_request {E : Type}
    (builtinProperty : string -> string -> BuiltinLookup E)
    (commands : AllCommands)
    (toolName commandName template : string)
    (toolCommands : ToolCommands) (cfg : CommandConfig) (tail : list string) :
  specialToken toolName = false ->
  commands !! toolName = Some toolCommands ->
  commandName <> "help" ->
  toolCommands !! commandName = Some cfg ->
  truthy (handler cfg) = false ->
  command cfg = Some template ->
  template <> EmptyString ->
  executeCommand
    <$> parseCommandArgs builtinProperty
          (toolName :: commandName :: "help" :: tail) commands
  = Some {| ci_type := Some "shell"; ci_success := Some true;
            ci_result := Some ("Command executed: " +:+ template);
            ci_tool := None; ci_command := None; ci_config := None; ci_args := None;
            ci_error := None; ci_showHelp := None; ci_toolHelp := None;
            ci_commands := None; ci_commandHelp := None |}.
Proof.
  intros Hs Ht Hn Hc Hh Hcmd Hne.
  rewrite (parse_resolves _ _ _ _ _ _ _ Hs Ht Hn Hc).
  change (argIs 0 "help" ("help" :: tail)) with true. cbv iota.
  cbn [fmap option_fmap option_map]. unfold executeCommand. cbn [ci_config ci_args default].
  rewrite Hh, Hcmd. destruct template as [|c t]; [contradiction|].
  cbn [truthy default]. cbv zeta. rewrite shared_format_without_arguments.
  reflexivity.
Qed.

Lemma execute_ignores_help_request_witness :
  ci_result <$> (executeCommand
                   <$> parseCommandArgs Sample.builtins ["git"; "checkout"; "help"]
                         Sample.sharedCommands)
  = Some (Some "Command executed: git checkout {0}").
Proof.
  rewrite (execute_ignores_help_request Sample.builtins Sample.sharedCommands
             "git" "checkout"
             "git checkout {0}" (SharedView.sharedTools Sample.gitCommands)
             Sample.sharedCheckout []
             eq_refl eq_refl ltac:(discriminate) eq_refl eq_refl eq_refl
             ltac:(discriminate)).
  reflexivity.
Defined.

End SharedResolver.

(** ** The two resolvers on one table *)

Section ResolversCompared.
Import JsString JsObject.






End ResolversCompared.

(** ** More on the formatters *)

Section FormatterLaws.
Import JsString Template.

Lemma formatLoop_surplus (ps : list string) (i : nat) (args extra : list string)
    (result : string) :
  i + length ps <= length args ->
  NodeMain.formatLoop ps i (args ++ extra) result = NodeMain.formatLoop ps i args result.
Proof.
  revert i result. induction ps as [|p ps IH]; intros i result H; [reflexivity|].
  cbn [NodeMain.formatLoop]. cbn [length] in H.
  replace (i <? length (args ++ extra)) with true
    by (symmetry; apply Nat.ltb_lt; rewrite length_app; lia).
  replace (i <? length args) with true by (symmetry; apply Nat.ltb_lt; lia).
  rewrite List.app_nth1 by lia. apply IH. lia.
Qed.

Lemma formatEach_surplus (ps : list string) (i : nat) (args extra : list string)
    (result : string) :
  i + length ps <= length args ->
  SharedUtils.formatEach ps i (args ++ extra) result
  = SharedUtils.formatEach ps i args result.
Proof.
  revert i result. induction ps as [|p ps IH]; intros i result H; [reflexivity|].
  cbn [SharedUtils.formatEach]. cbn [length] in H. cbv zeta.
  replace (i <? length (args ++ extra)) with true
    by (symmetry; apply Nat.ltb_lt; rewrite length_app; lia).
  replace (i <? length args) with true by (symmetry; apply Nat.ltb_lt; lia).
  rewrite List.app_nth1 by lia. apply IH. lia.
Qed.

(** Arguments beyond the placeholders of the template are dropped: once
    every placeholder has an argument, further arguments do not change the
    output of either formatter. *)
Theorem surplus_arguments_are_dropped (template : string) (args extra : list string) :
  length (matchPlaceholders template) <= length args ->
  NodeMain.formatCommand template (args ++ extra) = NodeMain.formatCommand template args
  /\ SharedUtils.formatCommand template (args ++ extra)
     = SharedUtils.formatCommand template args.
Proof.
  intros H. unfold NodeMain.formatCommand, SharedUtils.formatCommand.
  destruct (includesChar LBRACE template); split; try reflexivity.
  - apply formatLoop_surplus. exact H.
  - apply formatEach_surplus. exact H.
Qed.

Lemma surplus_arguments_are_dropped_witness :
  NodeMain.formatCommand "git status" ([] ++ ["--short"; "--branch"])
  = NodeMain.formatCommand "git status" [].
Proof.
  exact (proj1 (surplus_arguments_are_dropped "git status" [] ["--short"; "--branch"]
                  (Nat.le_refl 0))).
Defined.

Lemma inert_no_placeholders (o : bool) (s : string) :
  inertFrom o s = true -> matchPlaceholders s = [].
Proof.
  revert o. induction s as [|c r IH]; intros o H; [reflexivity|].
  rewrite matchPlaceholders_step. cbn [inertFrom] in H.
  assert (Hr : exists o', inertFrom o' r = true).
  { destruct o; [apply andb_true_iff in H as [_ H]|]; eauto. }
  destruct Hr as [o' Hr].
  assert (Hnone : matchPlaceholderAt (String c r) = None).
  { cbn [matchPlaceholderAt]. destruct (Ascii.eqb c LBRACE) eqn:Ec; [|reflexivity].
    destruct o.
    - apply andb_true_iff in H as [Hc _]. apply Ascii.eqb_eq in Hc.
      subst c. vm_compute in Ec. discriminate Ec.
    - destruct r as [|d r']; [reflexivity|]. cbn [inertFrom] in H.
      apply andb_true_iff in H as [Hd _]. cbn [untilClose]. rewrite Hd. reflexivity. }
  rewrite Hnone. exact (IH o' Hr).
Qed.

(** A template in which every opening brace is directly followed by a
    closing one has no placeholder: both formatters return it unchanged,
    whatever the arguments. *)
Theorem empty_braces_are_no_placeholders (template : string) (args : list string) :
  inert template = true ->
  NodeMain.formatCommand template args = template
  /\ SharedUtils.formatCommand template args = template.
Proof.
  intros H. unfold NodeMain.formatCommand, SharedUtils.formatCommand.
  rewrite (inert_no_placeholders false template H).
  destruct (includesChar LBRACE template); split; reflexivity.
Qed.

Lemma empty_braces_are_no_placeholders_witness :
  NodeMain.formatCommand "find . -exec ls {} +" ["src"] = "find . -exec ls {} +".
Proof.
  exact (proj1 (empty_braces_are_no_placeholders "find . -exec ls {} +" ["src"] eq_refl)).
Defined.

Lemma attempt_in_inert (o : bool) (c : ascii) (r s : string) :
  inertFrom o (String c r) = true ->
  matchPlaceholderAt (String c (r +:+ s)) = None.
Proof.
  intros H. cbn [inertFrom] in H. cbn [matchPlaceholderAt].
  destruct (Ascii.eqb c LBRACE) eqn:Ec; [|reflexivity].
  destruct o.
  - apply andb_true_iff in H as [Hc _]. apply Ascii.eqb_eq in Hc.
    subst c. vm_compute in Ec. discriminate Ec.
  - destruct r as [|d r']; [discriminate H|]. cbn [inertFrom] in H.
    apply andb_true_iff in H as [Hd _].
    rewrite (app_String d r' s). cbn [untilClose]. rewrite Hd. reflexivity.
Qed.

Lemma substituteFrom_inert (o : bool) (l s : string) (i : nat) (args : list string) :
  inertFrom o l = true ->
  Spec.substituteFrom (l +:+ s) i args = l +:+ Spec.substituteFrom s i args.
Proof.
  revert o. induction l as [|c r IH]; intros o H; [reflexivity|].
  rewrite (app_String c r s), substituteFrom_step, (attempt_in_inert o c r s H).
  assert (Hr : exists o', inertFrom o' r = true).
  { cbn [inertFrom] in H. destruct o; [apply andb_true_iff in H as [_ H]|]; eauto. }
  destruct Hr as [o' Hr]. rewrite (IH o' Hr), app_String. reflexivity.
Qed.

Lemma untilClose_body (body rest : string) :
  includesChar RBRACE body = false ->
  untilClose (body +:+ String RBRACE rest) = Some (body, rest).
Proof.
  induction body as [|c b IH]; intros H.
  - rewrite app_empty_l. cbn [untilClose]. rewrite Ascii.eqb_refl. reflexivity.
  - rewrite app_String. cbn [untilClose includesChar] in *.
    destruct (Ascii.eqb c RBRACE); [discriminate H|]. rewrite (IH H). reflexivity.
Qed.

Lemma attempt_at_placeholder (p rest : string) :
  placeholderShape p -> matchPlaceholderAt (p +:+ rest) = Some (p, rest).
Proof.
  intros (b & body & -> & Hb).
  rewrite app_String, app_assoc_str. cbn [matchPlaceholderAt].
  rewrite Ascii.eqb_refl.
  change (String RBRACE EmptyString +:+ rest) with (String RBRACE rest).
  rewrite (untilClose_body (String b body) rest Hb). reflexivity.
Qed.

Lemma substituteFuel_shift (n : nat) (s : string) (i : nat) (a : string)
    (args : list string) :
  Spec.substituteFuel n s (S i) (a :: args) = Spec.substituteFuel n s i args.
Proof.
  revert s i. induction n as [|n IH]; intros s i; [reflexivity|].
  destruct s as [|c r]; [reflexivity|]. cbn [Spec.substituteFuel].
  destruct (matchPlaceholderAt (String c r)) as [[p rest]|].
  - rewrite IH. reflexivity.
  - rewrite IH. reflexivity.
Qed.

(** The formatter works through a template placeholder by placeholder: on
    plain arguments, a template that starts with text without placeholder,
    followed by a placeholder, is formatted to that text, the first
    argument, and the rest of the template formatted with the remaining
    arguments. *)
Theorem format_first_placeholder (l p rest a : string) (args : list string) :
  inert l = true ->
  placeholderShape p ->
  plainArgument a ->
  Forall plainArgument args ->
  NodeMain.formatCommand (l +:+ p +:+ rest) (a :: args)
  = l +:+ a +:+ NodeMain.formatCommand rest args.
Proof.
  intros Hl Hp Ha Hargs.
  rewrite (formatCommand_positional _ (a :: args)) by (constructor; assumption).
  rewrite (formatCommand_positional rest args Hargs).
  unfold Spec.format.
  rewrite (substituteFrom_inert false l _ _ _ Hl).
  destruct (p +:+ rest) as [|c r] eqn:E.
  { destruct Hp as (b & body & -> & _). discriminate E. }
  rewrite substituteFrom_step, <- E, (attempt_at_placeholder p rest Hp).
  change (0 <? length (a :: args)) with true. cbv iota.
  change (nth 0 (a :: args) EmptyString) with a.
  unfold Spec.substituteFrom. rewrite substituteFuel_shift. reflexivity.
Qed.

Lemma format_first_placeholder_witness :
  NodeMain.formatCommand ("git commit -m " +:+ "{message}" +:+ " --author {1}")
    ["fix"; "me"]
  = "git commit -m " +:+ "fix" +:+ NodeMain.formatCommand " --author {1}" ["me"].
Proof.
  refine (format_first_placeholder "git commit -m " "{message}" " --author {1}"
            "fix" ["me"] eq_refl _ _ _).
  - exists "m"%char, "essage". split; reflexivity.
  - split; reflexivity.
  - repeat constructor.
Defined.

(** On arguments with neither an opening brace nor a dollar sign both
    formatters substitute by position: the output is the template with the
    i-th placeholder replaced by the i-th argument and the placeholders
    beyond the arguments left as they are; for the formatter of the shared
    utilities this needs placeholders without an inner opening brace. *)
Theorem formatters_positional_on_plain_arguments (template : string)
    (args : list string) :
  Forall plainArgument args ->
  NodeMain.formatCommand template args = Spec.format template args
  /\ (Forall (fun p => innerBrace p = false)
        (take (length args) (matchPlaceholders template)) ->
      SharedUtils.formatCommand template args = Spec.format template args).
Proof.
  intros Hargs.
  assert (Hnode : NodeMain.formatCommand template args = Spec.format template args).
  { unfold NodeMain.formatCommand.
    change (Spec.format template args) with (Spec.substituteFrom template 0 args).
    destruct (includesChar LBRACE template) eqn:E.
    - exact (formatLoop_positional args Hargs _ template EmptyString 0 eq_refl eq_refl).
    - rewrite (substituteFrom_no_placeholders _ _ _ (no_brace_no_placeholders _ E)).
      reflexivity. }
  split; [exact Hnode|]. intros Hps. rewrite <- Hnode.
  unfold NodeMain.formatCommand, SharedUtils.formatCommand.
  destruct (includesChar LBRACE template); [|reflexivity].
  apply formatEach_formatLoop; [apply matchAllFuel_shape|].
  rewrite Nat.sub_0_r. exact Hps.
Qed.

Lemma formatters_positional_on_plain_arguments_witness :
  NodeMain.formatCommand "git checkout {0} {1}" ["main"]
  = Spec.format "git checkout {0} {1}" ["main"].
Proof.
  refine (proj1 (formatters_positional_on_plain_arguments
                   "git checkout {0} {1}" ["main"] _)).
  repeat constructor.
Defined.

End FormatterLaws.

(** ** Facts about the logger *)

Section LoggerFacts.
Import JsString Logger.

Lemma digitsThenM_shorter (seen : bool) (s rest : string) :
  digitsThenM seen s = Some rest -> String.length rest < String.length s.
Proof.
  revert seen. induction s as [|c r IH]; intros seen; cbn [digitsThenM]; [discriminate|].
  destruct (isDigit c).
  - intros H. apply IH in H. simpl. lia.
  - destruct (seen && Ascii.eqb c "m"); [|discriminate].
    intros H. inversion H; subst. simpl. lia.
Qed.

Lemma colourCodeAt_shorter (s rest : string) :
  colourCodeAt s = Some rest -> String.length rest < String.length s.
Proof.
  destruct s as [|c [|d r]]; cbn [colourCodeAt]; try discriminate.
  destruct (Ascii.eqb c ESC && Ascii.eqb d "["); [|discriminate].
  intros H. apply digitsThenM_shorter in H. simpl. lia.
Qed.

Lemma stripFuel_enough (n m : nat) (s : string) :
  String.length s <= n -> String.length s <= m -> stripFuel n s = stripFuel m s.
Proof.
  revert m s. induction n as [|n IH]; intros m s Hn Hm.
  - destruct s; [|simpl in Hn; lia]. destruct m; reflexivity.
  - destruct m as [|m]; [destruct s; [reflexivity|simpl in Hm; lia]|].
    destruct s as [|c r]; [reflexivity|]. cbn [stripFuel]. simpl in Hn, Hm.
    destruct (colourCodeAt (String c r)) as [rest|] eqn:M.
    + apply colourCodeAt_shorter in M. simpl in M. apply IH; lia.
    + apply f_equal. apply IH; lia.
Qed.

Lemma stripColours_step (c : ascii) (r : string) :
  stripColours (String c r)
  = match colourCodeAt (String c r) with
    | Some rest => stripColours rest
    | None => String c (stripColours r)
    end.
Proof.
  unfold stripColours. cbn [String.length stripFuel].
  destruct (colourCodeAt (String c r)) as [rest|] eqn:M.
  - apply colourCodeAt_shorter in M. simpl in M. apply stripFuel_enough; lia.
  - reflexivity.
Qed.

Lemma colourCodeAt_other (c : ascii) (r : string) :
  Ascii.eqb c ESC = false -> colourCodeAt (String c r) = None.
Proof. intros H. cbn [colourCodeAt]. destruct r; [reflexivity|]. rewrite H. reflexivity. Qed.

(** Text without an escape character is kept, whatever follows. *)
Lemma stripColours_plain (a b : string) :
  includesChar ESC a = false -> stripColours (a +:+ b) = a +:+ stripColours b.
Proof.
  induction a as [|c r IH]; intros H; [reflexivity|].
  cbn [includesChar] in H. destruct (Ascii.eqb c ESC) eqn:E; [discriminate|].
  rewrite app_String, stripColours_step.
  rewrite (colourCodeAt_other c (r +:+ b) E), (IH H). reflexivity.
Qed.

Lemma stripColours_code (code b : string) :
  (forall x, colourCodeAt (code +:+ x) = Some x) ->
  stripColours (code +:+ b) = stripColours b.
Proof.
  intros H. destruct (code +:+ b) as [|c r] eqn:E.
  - specialize (H b). rewrite E in H. discriminate H.
  - rewrite stripColours_step, <- E, H. reflexivity.
Qed.

Lemma stripColours_level_colour (level : LogLevel) (b : string) :
  stripColours (LEVEL_COLORS level +:+ b) = stripColours b.
Proof.
  destruct level; cbn [LEVEL_COLORS]; rewrite ?app_assoc_str;
    repeat (rewrite stripColours_code by (intros x; reflexivity)); reflexivity.
Qed.

Lemma stripColours_reset (b : string) : stripColours (reset +:+ b) = stripColours b.
Proof. apply stripColours_code. intros x. reflexivity. Qed.

Lemma stripColours_id (a : string) :
  includesChar ESC a = false -> stripColours a = a.
Proof.
  intros H. rewrite <- (app_empty_r a) at 1.
  rewrite (stripColours_plain a EmptyString H). apply app_empty_r.
Qed.

Lemma LEVEL_NAMES_plain (level : LogLevel) : includesChar ESC (LEVEL_NAMES level) = false.
Proof. destruct level; reflexivity. Qed.

Lemma stripColours_formatLogMessage (lg : LoggerState) (timestamp : string)
    (level : LogLevel) (message : string) :
  includesChar ESC timestamp = false ->
  includesChar ESC (name lg) = false ->
  includesChar ESC message = false ->
  stripColours (formatLogMessage lg timestamp level message)
  = formatLogMessage {| name := name lg; useColors := false;
                        logLevel := logLevel lg; fileStream := fileStream lg |}
      timestamp level message.
Proof.
  intros Ht Hn Hm.
  assert (Hplain : includesChar ESC
            (timestamp +:+ " - " +:+ LEVEL_NAMES level +:+ " - " +:+ name lg
             +:+ " - " +:+ message) = false).
  { rewrite !includesChar_app, Ht, Hn, Hm, LEVEL_NAMES_plain. reflexivity. }
  unfold formatLogMessage. cbn [useColors name].
  destruct (useColors lg).
  - rewrite (stripColours_plain timestamp _ Ht).
    rewrite (stripColours_plain " - " _ eq_refl).
    rewrite stripColours_level_colour.
    rewrite (stripColours_plain (LEVEL_NAMES level) _ (LEVEL_NAMES_plain level)).
    rewrite stripColours_reset.
    rewrite stripColours_id; [reflexivity|].
    rewrite !includesChar_app, Hn, Hm. reflexivity.
  - apply stripColours_id. exact Hplain.
Qed.


(** What goes to the log file is the console line without its colours:
    for a message at or above the threshold, a logger with an open file
    stream prints the formatted line and writes to the file the line that a
    logger without colours formats, followed by a line feed, when time
    stamp, logger name and formatted message hold no escape character. *)
Theorem file_line_is_uncoloured (lg : LoggerState) (timestamp : string)
    (level : LogLevel) (message : string) (args : list string) :
  fileStream lg = true ->
  levelValue (logLevel lg) <= levelValue level ->
  includesChar ESC timestamp = false ->
  includesChar ESC (name lg) = false ->
  includesChar ESC (formatArguments message args) = false ->
  log lg timestamp level message args
  = [Console (consoleMethod level)
       (formatLogMessage lg timestamp level (formatArguments message args));
     FileWrite
       (formatLogMessage {| name := name lg; useColors := false;
                            logLevel := logLevel lg; fileStream := fileStream lg |}
          timestamp level (formatArguments message args)
        +:+ String "010" EmptyString)].
Proof.
  intros Hf Hl Ht Hn Hm. unfold log.
  replace (levelValue level <? levelValue (logLevel lg)) with false
    by (symmetry; apply Nat.ltb_ge; exact Hl).
  cbv zeta. rewrite Hf, (stripColours_formatLogMessage lg _ level _ Ht Hn Hm).
  reflexivity.
Qed.

Lemma file_line_is_uncoloured_witness :
  log {| name := "cli"; useColors := true; logLevel := INFO; fileStream := true |}
    "2025-05-01T10:00:00.000Z" ERROR "Failed to load commands: %s" ["ENOENT"]
  = [Console console_error
       ("2025-05-01T10:00:00.000Z - " +:+ red +:+ "ERROR" +:+ reset
        +:+ " - cli - Failed to load commands: ENOENT");
     FileWrite
       ("2025-05-01T10:00:00.000Z - ERROR - cli - Failed to load commands: ENOENT"
        +:+ String "010" EmptyString)].
Proof.
  refine (file_line_is_uncoloured
            {| name := "cli"; useColors := true; logLevel := INFO; fileStream := true |}
            "2025-05-01T10:00:00.000Z" ERROR "Failed to load commands: %s" ["ENOENT"]
            eq_refl _ eq_refl eq_refl eq_refl).
  simpl. lia.
Defined.

Lemma replaceConversions_plain (message : string) (args : list string) (i : nat) :
  includesChar "%" message = false -> replaceConversions message args i = message.
Proof.
  induction message as [|c r IH]; intros H; [reflexivity|].
  cbn [includesChar replaceConversions] in *.
  destruct (Ascii.eqb c "%"); [discriminate H|]. rewrite (IH H). reflexivity.
Qed.

Lemma replaceConversions_app (l r : string) (args : list string) (i : nat) :
  includesChar "%" l = false ->
  replaceConversions (l +:+ r) args i = l +:+ replaceConversions r args i.
Proof.
  induction l as [|c l' IH]; intros H; [reflexivity|].
  rewrite !app_String. cbn [includesChar replaceConversions] in *.
  destruct (Ascii.eqb c "%"); [discriminate H|]. rewrite (IH H). reflexivity.
Qed.

(** A message is logged as it is written when it is logged without further
    arguments (percent signs included) or holds no percent sign. *)
Theorem message_is_verbatim (message : string) (args : list string) :
  args = [] \/ includesChar "%" message = false ->
  formatArguments message args = message.
Proof.
  intros [-> | H]; [reflexivity|]. unfold formatArguments.
  destruct (0 <? length args); [apply replaceConversions_plain; exact H|reflexivity].
Qed.

Lemma message_is_verbatim_witness :
  formatArguments "Progress: 100%% of %s" [] = "Progress: 100%% of %s".
Proof. exact (message_is_verbatim "Progress: 100%% of %s" [] (or_introl eq_refl)). Defined.

(** A conversion takes its argument as it is: in a message with one
    conversion, the conversion is replaced by the first argument, whatever
    that argument holds (percent and dollar signs included; the inserted
    text is not scanned again), and further arguments are ignored. *)
Theorem conversion_inserts_argument (l r : string) (d : ascii) (a : string)
    (more : list string) :
  includesChar "%" l = false ->
  includesChar "%" r = false ->
  d = "s"%char \/ d = "d"%char \/ d = "j"%char ->
  formatArguments (l +:+ String "%" (String d r)) (a :: more) = l +:+ a +:+ r.
Proof.
  intros Hl Hr Hd. unfold formatArguments. cbn [length Nat.ltb Nat.leb].
  rewrite (replaceConversions_app l _ _ _ Hl).
  cbn [replaceConversions]. rewrite Ascii.eqb_refl.
  destruct Hd as [-> | [-> | ->]]; cbn [Ascii.eqb]; simpl;
    rewrite (replaceConversions_plain r _ _ Hr); reflexivity.
Qed.

Lemma conversion_inserts_argument_witness :
  formatArguments ("Unknown command: " +:+ String "%" (String "s" " (ignored)"))
    ["100%s $& {0}"; "extra"]
  = "Unknown command: " +:+ "100%s $& {0}" +:+ " (ignored)".
Proof.
  exact (conversion_inserts_argument "Unknown command: " " (ignored)" "s"
           "100%s $& {0}" ["extra"] eq_refl eq_refl (or_introl eq_refl)).
Defined.

(** The names that [getLogLevelFromEnv] knows. *)
Lemma unknown_name_is_INFO (toUpperCase : string -> string) (v : string) :
  ~ In (toUpperCase v) ["TRACE"; "DEBUG"; "WARNING"; "ERROR"; "CRITICAL"] ->
  getLogLevelFromEnv toUpperCase (Some v) = INFO.
Proof.
  intros H. unfold getLogLevelFromEnv. cbn [fmap option_fmap option_map].
  repeat match goal with
  | |- context [String.eqb (toUpperCase v) ?n] =>
      destruct (String.eqb_spec (toUpperCase v) n) as [E|_];
      [try reflexivity; exfalso; apply H; rewrite E; simpl; tauto|]
  end.
  reflexivity.
Qed.

(** With [VIBE_LOG_LEVEL] unset, or set to a value that does not read as
    one of the level names, the threshold is INFO: exactly the messages of
    the levels TRACE and DEBUG are suppressed. *)
Theorem default_threshold (toUpperCase : string -> string) (variable : option string)
    (lg : LoggerState) (timestamp : string) (level : LogLevel) (message : string)
    (args : list string) :
  (forall v, variable = Some v ->
     ~ In (toUpperCase v) ["TRACE"; "DEBUG"; "WARNING"; "ERROR"; "CRITICAL"]) ->
  logLevel lg = getLogLevelFromEnv toUpperCase variable ->
  (log lg timestamp level message args = [] <-> level = TRACE \/ level = DEBUG).
Proof.
  intros Hv Hl.
  assert (Hinfo : logLevel lg = INFO).
  { rewrite Hl. destruct variable as [v|]; [|reflexivity].
    apply unknown_name_is_INFO. apply Hv. reflexivity. }
  unfold log. rewrite Hinfo.
  destruct level; cbn [levelValue]; simpl; split; intros H;
    try reflexivity; try discriminate H; auto;
    destruct H as [H | H]; discriminate H.
Qed.

Lemma default_threshold_witness :
  log {| name := "cli"; useColors := false; logLevel := INFO; fileStream := false |}
    "2025-05-01T10:00:00.000Z" DEBUG "Found shared directory at /opt" [] = [].
Proof.
  apply (default_threshold (fun s => s) None
           {| name := "cli"; useColors := false; logLevel := INFO; fileStream := false |}
           "2025-05-01T10:00:00.000Z" DEBUG "Found shared directory at /opt" []).
  - intros v H. discriminate H.
  - reflexivity.
  - right. reflexivity.
Defined.

End LoggerFacts.

(** ** Facts about the shell configuration file *)

Section InstallAliasFacts.
Import JsString InstallAlias.

Lemma trimEnd_graphic (c : ascii) (r : string) :
  isWhiteSpace c = false -> exists r', trimEnd (String c r) = String c r'.
Proof.
  intros H. cbn [trimEnd]. destruct (trimEnd r); [rewrite H|]; eauto.
Qed.

Lemma trim_graphic (c : ascii) (r : string) :
  isWhiteSpace c = false -> exists r', trim (String c r) = String c r'.
Proof.
  intros H. unfold trim. cbn [trimStart]. rewrite H. apply trimEnd_graphic, H.
Qed.

Lemma blank_graphic (c : ascii) (r : string) :
  isWhiteSpace c = false -> blank (String c r) = false.
Proof.
  intros H. unfold blank. destruct (trim_graphic c r H) as [r' ->]. reflexivity.
Qed.

Lemma blank_source (path : string) : blank ("source " +:+ path) = false.
Proof. apply (blank_graphic "s" ("ource " +:+ path)). reflexivity. Qed.

(** *** Blank lines *)

Lemma spaced_cons (a b : string) (r : list string) :
  spaced (a :: b :: r) = negb (blank a && blank b) && spaced (b :: r).
Proof. reflexivity. Qed.

Lemma spaced_tail (a : string) (r : list string) :
  spaced (a :: r) = true -> spaced r = true.
Proof.
  destruct r as [|b r]; [reflexivity|]. rewrite spaced_cons.
  intros H. apply andb_true_iff in H. apply H.
Qed.

Lemma cleanFrom_spaced (previous : string) (lines : list string) :
  spaced (cleanFrom previous lines) = true
  /\ (blank previous = true ->
      forall x, head (cleanFrom previous lines) = Some x -> blank x = false).
Proof.
  revert previous. induction lines as [|line rest IH]; intros previous.
  - split; [reflexivity|]. intros _ x Hx. discriminate Hx.
  - cbn [cleanFrom]. destruct (IH line) as [Hs Hh].
    assert (Hk : spaced (line :: cleanFrom line rest) = true).
    { destruct (cleanFrom line rest) as [|next more] eqn:Hc; [reflexivity|].
      rewrite spaced_cons, Hs, andb_true_r.
      destruct (blank line) eqn:Hl; [|reflexivity].
      rewrite (Hh eq_refl next eq_refl). reflexivity. }
    destruct (blank line) eqn:Hl, (blank previous) eqn:Hp; cbn [negb orb app].
    + split; [exact Hs|]. intros _. apply Hh. reflexivity.
    + split; [exact Hk|intros Hf; discriminate Hf].
    + split; [exact Hk|]. intros _ x Hx. inversion Hx; subst. exact Hl.
    + split; [exact Hk|intros Hf; discriminate Hf].
Qed.

Lemma cleanedLines_spaced (lines : list string) : spaced (cleanedLines lines) = true.
Proof.
  destruct lines as [|first rest]; [reflexivity|].
  cbn [cleanedLines].
  destruct (cleanFrom_spaced first rest) as [Hs Hh].
  destruct (cleanFrom first rest) as [|next more] eqn:Hc; [reflexivity|].
  rewrite spaced_cons, Hs, andb_true_r.
  destruct (blank first) eqn:Hf; [|reflexivity].
  rewrite (Hh eq_refl next eq_refl). reflexivity.
Qed.

Lemma popBlank_head (lines : list string) (x : string) :
  head (popBlank lines) = Some x -> head lines = Some x.
Proof.
  destruct lines as [|line rest]; [discriminate|].
  cbn [popBlank]. destruct (popBlank rest); [destruct (blank line)|];
    intros H; try discriminate H; exact H.
Qed.

Lemma popBlank_spaced (lines : list string) :
  spaced lines = true -> spaced (popBlank lines) = true.
Proof.
  induction lines as [|line rest IH]; [reflexivity|].
  intros Hs. cbn [popBlank].
  specialize (IH (spaced_tail _ _ Hs)).
  destruct (popBlank rest) as [|k kept] eqn:Hp.
  - destruct (blank line); reflexivity.
  - rewrite spaced_cons, IH, andb_true_r.
    assert (Hk : head rest = Some k) by (apply popBlank_head; rewrite Hp; reflexivity).
    destruct rest as [|next more]; [discriminate Hk|].
    inversion Hk; subst. rewrite spaced_cons in Hs.
    apply andb_true_iff in Hs. apply Hs.
Qed.

Lemma popBlank_last (lines : list string) (x : string) :
  last (popBlank lines) = Some x -> blank x = false.
Proof.
  induction lines as [|line rest IH]; [discriminate|].
  cbn [popBlank]. destruct (popBlank rest) as [|k kept] eqn:Hp.
  - destruct (blank line) eqn:Hl; [discriminate|].
    intros H. inversion H; subst. exact Hl.
  - intros H. apply IH. rewrite <- H. reflexivity.
Qed.

Lemma spaced_app (a b : list string) :
  spaced a = true -> spaced b = true ->
  (forall x y, last a = Some x -> head b = Some y -> blank x && blank y = false) ->
  spaced (a ++ b) = true.
Proof.
  induction a as [|x a IH]; intros Ha Hb Hj; [exact Hb|].
  destruct a as [|x' a].
  - destruct b as [|y b]; [reflexivity|].
    change ([x] ++ y :: b) with (x :: y :: b).
    rewrite spaced_cons, (Hj x y eq_refl eq_refl). exact Hb.
  - rewrite spaced_cons in Ha. apply andb_true_iff in Ha. destruct Ha as [Hx Ha].
    change ((x :: x' :: a) ++ b) with (x :: x' :: (a ++ b)).
    rewrite spaced_cons, Hx. apply (IH Ha Hb).
    intros u v Hu Hv. apply Hj; [|exact Hv]. rewrite <- Hu. reflexivity.
Qed.

Lemma keptLines_spaced (lines : list string) : spaced (keptLines lines) = true.
Proof. apply popBlank_spaced, cleanedLines_spaced. Qed.

(** The file that [install-alias] writes never has two blank lines in a
    row, whatever the old file holds. *)
Theorem written_lines_are_spaced (targetAliasScriptPath : string)
    (lines : list string) :
  spaced (updatedLines targetAliasScriptPath lines) = true.
Proof.
  unfold updatedLines. cbv zeta.
  assert (Hb : spaced [brandingComment1; brandingComment2; brandingComment3;
                       brandingComment4; sourceLine targetAliasScriptPath;
                       EmptyString] = true).
  { unfold sourceLine.
    rewrite !spaced_cons, (blank_source targetAliasScriptPath). reflexivity. }
  apply spaced_app; [apply keptLines_spaced| |].
  - destruct (last (keptLines lines)) as [x|]; [|exact Hb].
    destruct (blank x); [exact Hb|].
    change (spaced (EmptyString :: [brandingComment1; brandingComment2;
              brandingComment3; brandingComment4;
              sourceLine targetAliasScriptPath; EmptyString]) = true).
    rewrite spaced_cons, Hb. reflexivity.
  - intros x y Hx Hy. rewrite (popBlank_last _ _ Hx). reflexivity.
Qed.

(** *** The lines that are kept *)

Lemma filterLines_sublist (k : nat) (lines : list string) :
  filterLines k lines `sublist_of` lines.
Proof.
  revert k. induction lines as [|line rest IH]; intros k; [constructor|].
  cbn [filterLines]. destruct (keepLine k line).1; cbn [app].
  - apply sublist_skip, IH.
  - apply sublist_cons, IH.
Qed.

Lemma cleanFrom_sublist (previous : string) (lines : list string) :
  cleanFrom previous lines `sublist_of` lines.
Proof.
  revert previous. induction lines as [|line rest IH]; intros previous; [constructor|].
  cbn [cleanFrom]. destruct (negb (blank line) || negb (blank previous)); cbn [app].
  - apply sublist_skip, IH.
  - apply sublist_cons, IH.
Qed.

Lemma cleanedLines_sublist (lines : list string) :
  cleanedLines lines `sublist_of` lines.
Proof.
  destruct lines as [|first rest]; [constructor|].
  apply sublist_skip, cleanFrom_sublist.
Qed.

Lemma popBlank_sublist (lines : list string) : popBlank lines `sublist_of` lines.
Proof.
  induction lines as [|line rest IH]; [constructor|].
  cbn [popBlank]. destruct (popBlank rest) as [|k kept].
  - destruct (blank line); [apply sublist_nil_l|apply sublist_skip, IH].
  - apply sublist_skip, IH.
Qed.


Lemma cleanFrom_text (previous : string) (lines : list string) :
  List.filter (fun line => negb (blank line)) (cleanFrom previous lines)
  = List.filter (fun line => negb (blank line)) lines.
Proof.
  revert previous. induction lines as [|line rest IH]; intros previous; [reflexivity|].
  cbn [cleanFrom]. rewrite List.filter_app, IH. cbn [List.filter].
  destruct (blank line) eqn:Hl; cbn [negb orb].
  - destruct (negb (blank previous)); cbn [List.filter]; [rewrite Hl|]; reflexivity.
  - cbn [List.filter]. rewrite Hl. reflexivity.
Qed.

Lemma cleanedLines_text (lines : list string) :
  List.filter (fun line => negb (blank line)) (cleanedLines lines)
  = List.filter (fun line => negb (blank line)) lines.
Proof.
  destruct lines as [|first rest]; [reflexivity|].
  cbn [cleanedLines List.filter]. rewrite cleanFrom_text. reflexivity.
Qed.

Lemma popBlank_text (lines : list string) :
  List.filter (fun line => negb (blank line)) (popBlank lines)
  = List.filter (fun line => negb (blank line)) lines.
Proof.
  induction lines as [|line rest IH]; [reflexivity|].
  cbn [popBlank]. destruct (popBlank rest) as [|k kept].
  - cbn [List.filter]. rewrite <- IH.
    destruct (blank line) eqn:Hl; cbn [List.filter]; rewrite ?Hl; reflexivity.
  - cbn [List.filter] in *. rewrite IH. reflexivity.
Qed.

Lemma test_miss (k : nat) (s : string) : (test k s).1 = false -> (test k s).2 = 0.
Proof.
  unfold test. destruct (String.length s <? k); [reflexivity|].
  destruct (search (from k s)); [discriminate|reflexivity].
Qed.

Lemma keepLine_kept (k : nat) (line : string) :
  (keepLine k line).1 = true -> (keepLine k line).2 = 0.
Proof.
  unfold keepLine.
  destruct (negb (String.eqb (trim line) brandingComment1) && _ && _ && _ && _);
    [|discriminate].
  cbn [fst snd]. intros H. apply test_miss.
  destruct (test k line).1; [discriminate H|reflexivity].
Qed.

Lemma filterLines_app (k : nat) (a b : list string) :
  exists k', filterLines k (a ++ b) = filterLines k a ++ filterLines k' b.
Proof.
  revert k. induction a as [|line a IH]; intros k; [exists k; reflexivity|].
  destruct (IH (keepLine k line).2) as [k' Hk]. exists k'.
  cbn [app filterLines]. rewrite Hk, app_assoc. reflexivity.
Qed.

Lemma filterLines_user (a b : list string) :
  Forall (fun line => vibeLine line = false) a ->
  filterLines 0 (a ++ b) = a ++ filterLines 0 b.
Proof.
  induction 1 as [|line a Hl _ IH]; [reflexivity|].
  unfold vibeLine in Hl. apply negb_false_iff in Hl.
  cbn [app filterLines]. rewrite (keepLine_kept _ _ Hl), Hl, IH. reflexivity.
Qed.

(** [install-alias] only removes lines: the lines it keeps of the old file
    are lines of the old file, in their order. *)
Theorem kept_lines_are_old_lines (lines : list string) :
  keptLines lines `sublist_of` lines.
Proof.
  unfold keptLines.
  transitivity (cleanedLines (filterLines 0 lines)); [apply popBlank_sublist|].
  transitivity (filterLines 0 lines); [apply cleanedLines_sublist|].
  apply filterLines_sublist.
Qed.

(** Of a file without a line of the installer, every line that is not
    blank is kept, in its place. *)
Theorem user_lines_are_kept (lines : list string) :
  Forall (fun line => vibeLine line = false) lines ->
  List.filter (fun line => negb (blank line)) (keptLines lines)
  = List.filter (fun line => negb (blank line)) lines.
Proof.
  intros H. unfold keptLines. rewrite popBlank_text, cleanedLines_text.
  rewrite <- (app_nil_r lines) at 1. rewrite (filterLines_user _ _ H), app_nil_r.
  reflexivity.
Qed.

Lemma user_lines_are_kept_witness :
  List.filter (fun line => negb (blank line))
    (keptLines ["export A=1"; EmptyString; EmptyString; "alias l=ls"; EmptyString])
  = List.filter (fun line => negb (blank line))
      ["export A=1"; EmptyString; EmptyString; "alias l=ls"; EmptyString].
Proof.
  apply (user_lines_are_kept
           ["export A=1"; EmptyString; EmptyString; "alias l=ls"; EmptyString]).
  repeat constructor.
Defined.

(** *** The pattern on the line of the installer *)

Lemma from_length (s : string) : from (String.length s) s = EmptyString.
Proof. induction s as [|c s IH]; [reflexivity|exact IH]. Qed.

Lemma oneLine_String (c : ascii) (s : string) :
  oneLine (String c s) = true -> isLineTerminator c = false /\ oneLine s = true.
Proof.
  unfold oneLine. cbn [everyChar]. intros H. apply andb_true_iff in H.
  destruct H as [H1 H2]. apply negb_true_iff in H1. split; assumption.
Qed.

Lemma greedyTail_script (d : string) :
  oneLine d = true ->
  greedyTail (d +:+ "/vibe_cli.sh") = Some (String.length d + 12).
Proof.
  induction d as [|c d IH]; intros H; [reflexivity|].
  apply oneLine_String in H. destruct H as [Hc Hd].
  rewrite app_String. cbn [greedyTail]. rewrite Hc, (IH Hd). reflexivity.
Qed.

Lemma stripPrefix_shape (p s r : string) :
  stripPrefix p s = Some r -> s = p +:+ r.
Proof.
  revert s. induction p as [|a p IH]; intros s H.
  - cbn [stripPrefix] in H. inversion H. reflexivity.
  - destruct s as [|b s]; cbn [stripPrefix] in H; [discriminate|].
    destruct (Ascii.eqb_spec a b) as [->|]; [|discriminate].
    rewrite app_String, (IH _ H). reflexivity.
Qed.

(** The word [source] of a match does not reach into the script name. *)
Lemma source_before_script (d r : string) :
  stripPrefix "source " (d +:+ "/vibe_cli.sh") = Some r ->
  exists d', d = "source " +:+ d' /\ r = d' +:+ "/vibe_cli.sh".
Proof.
  intros H.
  do 7 (destruct d as [|? d]; [vm_compute in H; discriminate H|];
        rewrite app_String in H; cbn [stripPrefix] in H;
        match type of H with
        | (if Ascii.eqb ?x ?y then _ else _) = _ =>
            destruct (Ascii.eqb_spec x y); [subst|discriminate H]
        end).
  cbn [stripPrefix] in H.
  inversion H; subst. exists d. split; reflexivity.
Qed.

Lemma search_matchAt (s : string) (e : nat) : matchAt s = Some e -> search s = Some e.
Proof. intros H. destruct s; cbn [search]; rewrite H; reflexivity. Qed.

Lemma search_script (d : string) (e : nat) :
  oneLine d = true ->
  search (d +:+ "/vibe_cli.sh") = Some e -> e = String.length d + 12.
Proof.
  revert e. induction d as [|c d IH]; intros e Hd H; [vm_compute in H; discriminate|].
  rewrite app_String in H. cbn [search] in H. rewrite <- app_String in H.
  destruct (matchAt (String c d +:+ "/vibe_cli.sh")) as [e0|] eqn:Hm.
  - inversion H; subst e0. unfold matchAt in Hm.
    destruct (stripPrefix "source " (String c d +:+ "/vibe_cli.sh")) as [r|] eqn:Hp;
      [|discriminate].
    destruct (source_before_script _ _ Hp) as (d' & Hd' & ->).
    rewrite Hd' in Hd |- *.
    assert (Ho : oneLine d' = true).
    { do 7 (apply oneLine_String in Hd; destruct Hd as [_ Hd]). exact Hd. }
    rewrite (greedyTail_script _ Ho) in Hm. inversion Hm.
    rewrite length_app_str. reflexivity.
  - apply oneLine_String in Hd. destruct Hd as [_ Hd].
    destruct (search (d +:+ "/vibe_cli.sh")) as [e'|] eqn:Hs; [|discriminate].
    inversion H. rewrite (IH e' Hd eq_refl). reflexivity.
Qed.

Lemma search_from_script (k : nat) (d : string) (e : nat) :
  oneLine d = true ->
  search (from k (d +:+ "/vibe_cli.sh")) = Some e -> k + e = String.length d + 12.
Proof.
  revert k. induction d as [|c d IH]; intros k Hd H.
  - exfalso. revert H. change (EmptyString +:+ "/vibe_cli.sh") with "/vibe_cli.sh".
    do 13 (destruct k as [|k]; [vm_compute; discriminate|]).
    vm_compute. destruct k; discriminate.
  - destruct k as [|k].
    + apply (search_script _ _ Hd H).
    + rewrite app_String in H. cbn [from] in H.
      apply oneLine_String in Hd. destruct Hd as [_ Hd].
      cbn [String.length]. specialize (IH k Hd H). lia.
Qed.

Lemma keepLine_source (k : nat) (path : string) :
  keepLine k ("source " +:+ path)
  = (negb (test k ("source " +:+ path)).1, (test k ("source " +:+ path)).2).
Proof.
  unfold keepLine.
  destruct (trim_graphic "s" ("ource " +:+ path) eq_refl) as [r' Hr].
  change (String "s" ("ource " +:+ path)) with ("source " +:+ path) in Hr.
  rewrite Hr. reflexivity.
Qed.



Lemma source_line_shape (dir : string) :
  "source " +:+ scriptPath dir = ("source " +:+ dir) +:+ "/vibe_cli.sh".
Proof. unfold scriptPath. symmetry. apply app_assoc_str. Qed.

Lemma test_source_start (dir : string) :
  oneLine dir = true ->
  test 0 ("source " +:+ scriptPath dir)
  = (true, String.length ("source " +:+ scriptPath dir)).
Proof.
  intros H. unfold test. cbn [Nat.ltb Nat.leb from].
  assert (Hm : matchAt ("source " +:+ scriptPath dir)
               = Some (String.length ("source " +:+ scriptPath dir))).
  { unfold matchAt. rewrite stripPrefix_app. unfold scriptPath.
    rewrite (greedyTail_script _ H), !length_app_str. reflexivity. }
  rewrite (search_matchAt _ _ Hm). reflexivity.
Qed.

Lemma test_source_end (s : string) : test (String.length s) s = (false, 0).
Proof.
  unfold test. rewrite Nat.ltb_irrefl, from_length. reflexivity.
Qed.

Lemma test_source_any (k : nat) (dir : string) :
  oneLine dir = true ->
  test k ("source " +:+ scriptPath dir) = (false, 0)
  \/ test k ("source " +:+ scriptPath dir)
     = (true, String.length ("source " +:+ scriptPath dir)).
Proof.
  intros H. unfold test.
  destruct (String.length ("source " +:+ scriptPath dir) <? k); [left; reflexivity|].
  destruct (search (from k ("source " +:+ scriptPath dir))) as [e|] eqn:Hs;
    [|left; reflexivity].
  right. rewrite source_line_shape in Hs |- *.
  apply f_equal. rewrite length_app_str.
  exact (search_from_script k ("source " +:+ dir) e H Hs).
Qed.

Lemma filterLines_pair (k : nat) (dir : string) (after : list string) :
  oneLine dir = true ->
  exists k',
    filterLines k (sourceLine (scriptPath dir) :: sourceLine (scriptPath dir) :: after)
    = sourceLine (scriptPath dir) :: filterLines k' after.
Proof.
  intros H. unfold sourceLine. cbn [filterLines]. rewrite (keepLine_source k).
  destruct (test_source_any k dir H) as [Ht|Ht]; rewrite Ht; cbn [fst snd negb].
  - rewrite keepLine_source, (test_source_start dir H). cbn [fst snd negb app].
    eexists. reflexivity.
  - rewrite keepLine_source, test_source_end. cbn [fst snd negb app].
    eexists. reflexivity.
Qed.

(** The pattern of the filter has the flag [g]: of two lines in a row that
    source the installed script, one is kept, so the file that is written
    sources the script twice. *)
Theorem one_of_two_source_lines_stays (targetCliDir : string)
    (before after : list string) :
  oneLine targetCliDir = true ->
  exists body,
    updatedLines (scriptPath targetCliDir)
      (before ++ sourceLine (scriptPath targetCliDir)
              :: sourceLine (scriptPath targetCliDir) :: after)
    = body ++ [brandingComment1; brandingComment2; brandingComment3;
               brandingComment4; sourceLine (scriptPath targetCliDir); EmptyString]
    /\ In (sourceLine (scriptPath targetCliDir)) body.
Proof.
  intros H. unfold updatedLines. cbv zeta. rewrite app_assoc.
  eexists. split; [reflexivity|].
  apply in_or_app. left.
  apply (proj1 (filter_In (fun line => negb (blank line)) _ _)).
  unfold keptLines. rewrite popBlank_text, cleanedLines_text.
  apply filter_In. split; [|unfold sourceLine; rewrite blank_source; reflexivity].
  destruct (filterLines_app 0 before
              (sourceLine (scriptPath targetCliDir)
               :: sourceLine (scriptPath targetCliDir) :: after)) as [k ->].
  destruct (filterLines_pair k targetCliDir after H) as [k' ->].
  apply in_or_app. right. left. reflexivity.
Qed.

Lemma one_of_two_source_lines_stays_witness :
  exists body,
    updatedLines (scriptPath "/home/u/.vibecloud/cli")
      (["export A=1"]
       ++ sourceLine (scriptPath "/home/u/.vibecloud/cli")
       :: sourceLine (scriptPath "/home/u/.vibecloud/cli") :: ["alias l=ls"])
    = body ++ [brandingComment1; brandingComment2; brandingComment3;
               brandingComment4;
               sourceLine (scriptPath "/home/u/.vibecloud/cli"); EmptyString]
    /\ In (sourceLine (scriptPath "/home/u/.vibecloud/cli")) body.
Proof.
  exact (one_of_two_source_lines_stays "/home/u/.vibecloud/cli"
           ["export A=1"] ["alias l=ls"] eq_refl).
Defined.

(** *** Installing twice *)














End InstallAliasFacts.
